(** * syntomid_convert: the unified note model and its two importers

    A shallow embedding of [src/syntomid_convert.py].

    - Python values that the program handles (what [json.load] returns, what
      a dataclass field may hold) are the inductive [pyval]; a [dict] with
      string keys is a [gmap string pyval].
    - A Python [float] is an IEEE 754 binary64 number: [spec_float] with
      precision 53 and maximal exponent 1024, with the rounding operations of
      the standard library ([SFadd], [SFmul], [SFdiv], [SFcompare]).
    - A raised exception is the [Raise] case of [result]; statements are
      sequenced with the bind of that monad.
    - Files are a finite map from the names that [open] receives to
      contents; a path object reaches [open] as the string that [pathlib]
      makes of it ([Path.str]).  The text layer of [json.dump]/[json.load]
      and the MIDI parser [mido] are outside the repository and appear only
      through the values they deliver.
    - [print] calls are not modelled. *)

From Stdlib Require Import ZArith Bool Ascii SpecFloat.
From stdpp Require Import gmap strings list fin_maps sorting.

#[local] Set Warnings "-register-all".
#[local] Open Scope Z_scope.

(** ** Exceptions and the result monad *)

(** The messages of [TypeError] that the program can meet. *)
Inductive type_error :=
  | NotIterable                              (* 'X' object is not iterable *)
  | BadSubscript                             (* X is not subscriptable / indices must be integers *)
  | NotAMapping                              (* argument after ** must be a mapping *)
  | UnexpectedKeyword                        (* __init__() got an unexpected keyword argument *)
  | MultipleValues                           (* __init__() got multiple values for argument 'self' *)
  | UnexpectedOrMultiple                     (* one of the two above, by the order of the keys *)
  | MissingArguments (fields : list string)  (* __init__() missing n required positional arguments *)
  | Unorderable.                             (* '<' not supported between instances *)

Inductive exn :=
  | TypeError (msg : type_error)
  | KeyError (key : string)
  | AttributeError
  | ZeroDivisionError
  | OverflowError
  | FileNotFoundError
  | ValueError                               (* json.JSONDecodeError, UnicodeDecodeError *)
  | MidiReadError.                           (* what mido raises on a file that is
                                                no MIDI file: EOFError, OSError *)

Inductive result (A : Type) :=
  | Ok (a : A)
  | Raise (e : exn).
Arguments Ok {A} a.
Arguments Raise {A} e.

#[global] Instance result_ret : MRet result := fun A a => Ok a.
#[global] Instance result_bind : MBind result := fun A B f m =>
  match m with
  | Ok a => f a
  | Raise e => Raise e
  end.

Definition is_Ok {A} (r : result A) : Prop := exists a, r = Ok a.

(** [for x in l: s = body s x], stopping at the first exception. *)
Fixpoint for_each {A S : Type} (body : S -> A -> result S) (s : S) (l : list A)
  : result S :=
  match l with
  | [] => Ok s
  | x :: l' => s' ← body s x; for_each body s' l'
  end.

(** ** Floats *)

Definition float := spec_float.
Definition prec : Z := 53.
Definition emax : Z := 1024.

Definition fadd : float -> float -> float := SFadd prec emax.
Definition fmul : float -> float -> float := SFmul prec emax.
Definition fdiv : float -> float -> float := SFdiv prec emax.

(** The binary64 number nearest to the integer [z] (ties to even). *)
Definition Z2F (z : Z) : float := binary_normalize prec emax z 0 false.

Definition f_zero : float := S754_zero false.   (* 0.0 *)
Definition f_one : float := Z2F 1.               (* 1.0 *)
Definition f_127 : float := Z2F 127.             (* 127.0 *)
Definition f_quarter : float := binary_normalize prec emax 1 (-2) false. (* 0.25 *)
Definition f_half : float := binary_normalize prec emax 1 (-1) false.    (* 0.5 *)

Definition is_nan (f : float) : bool :=
  match f with S754_nan => true | _ => false end.
Definition is_zero (f : float) : bool :=
  match f with S754_zero _ => true | _ => false end.

(** [float(z)]: Python raises OverflowError when the integer is too large. *)
Definition float_of_int (z : Z) : result float :=
  match Z2F z with
  | S754_infinity _ => Raise OverflowError
  | f => Ok f
  end.

(** [x / y] on floats. *)
Definition float_truediv (x y : float) : result float :=
  if is_zero y then Raise ZeroDivisionError else Ok (fdiv x y).

(** [a / b] on integers: the correctly rounded quotient.  For operands of
    magnitude at most 2^53, which convert to floats without rounding, that is
    the quotient of the converted operands; the only integer division of the
    program is [tempo / 1_000_000], whose operands are a 24-bit tempo and a
    constant. *)
Definition int_truediv (a b : Z) : result float :=
  if b =? 0 then Raise ZeroDivisionError
  else x ← float_of_int a; y ← float_of_int b; Ok (fdiv x y).

(** The exact comparison of an integer with a float ([z < f], [f < z]). *)
Definition Z_lt_float (z : Z) (f : float) : bool :=
  match f with
  | S754_nan => false
  | S754_infinity s => negb s
  | S754_zero _ => z <? 0
  | S754_finite s m e =>
      let v := if s then Z.neg m else Z.pos m in
      if 0 <=? e then z <? v * 2 ^ e else z * 2 ^ (- e) <? v
  end.
Definition float_lt_Z (f : float) (z : Z) : bool :=
  match f with
  | S754_nan => false
  | S754_infinity s => s
  | S754_zero _ => 0 <? z
  | S754_finite s m e =>
      let v := if s then Z.neg m else Z.pos m in
      if 0 <=? e then v * 2 ^ e <? z else v <? z * 2 ^ (- e)
  end.

(** ** Python values *)

Inductive pyval :=
  | PNone
  | PBool (b : bool)
  | PInt (z : Z)
  | PFloat (f : float)
  | PStr (s : string)
  | PList (l : list pyval)
  | PDict (d : gmap string pyval).

Abbreviation dict := (gmap string pyval).

(** Truth value of an object, as tested by [not v] and [v or w]. *)
Definition truthy (v : pyval) : bool :=
  match v with
  | PNone => false
  | PBool b => b
  | PInt z => negb (z =? 0)
  | PFloat f => negb (is_zero f)
  | PStr s => negb (String.eqb s "")
  | PList l => match l with [] => false | _ => true end
  | PDict d => negb (Nat.eqb (size d) 0)
  end.

(** [a or b] *)
Definition py_or (a b : pyval) : pyval := if truthy a then a else b.

(** [v.get(key, dflt)]: only a dict has the method. *)
Definition py_get (v : pyval) (key : string) (dflt : pyval) : result pyval :=
  match v with
  | PDict d => Ok (default dflt (d !! key))
  | _ => Raise AttributeError
  end.

(** [v[key]] with a string key. *)
Definition py_getitem (v : pyval) (key : string) : result pyval :=
  match v with
  | PDict d =>
      match d !! key with
      | Some x => Ok x
      | None => Raise (KeyError key)
      end
  | _ => Raise (TypeError BadSubscript)
  end.

Fixpoint chars (s : string) : list pyval :=
  match s with
  | EmptyString => []
  | String a s' => PStr (String a EmptyString) :: chars s'
  end.

(** The items that [for x in v] visits.  A dict yields its keys (here in the
    order of the map, the program never depends on it). *)
Definition py_iter (v : pyval) : result (list pyval) :=
  match v with
  | PList l => Ok l
  | PDict d => Ok (PStr <$> (map_to_list d).*1)
  | PStr s => Ok (chars s)
  | _ => Raise (TypeError NotIterable)
  end.

(** [a < b] for the keys a sort may meet: numbers (a bool counts as 0 or 1)
    and strings.  Other pairs are reported as unorderable; sequences, which
    Python compares lexicographically, are not modelled. *)
Definition as_int (v : pyval) : option Z :=
  match v with
  | PInt z => Some z
  | PBool b => Some (if b then 1 else 0)
  | _ => None
  end.

Definition py_lt (a b : pyval) : result bool :=
  match a, b with
  | PFloat x, PFloat y => Ok (SFltb x y)
  | PStr s, PStr t => Ok (String.ltb s t)
  | PFloat x, _ =>
      match as_int b with
      | Some z => Ok (float_lt_Z x z)
      | None => Raise (TypeError Unorderable)
      end
  | _, PFloat y =>
      match as_int a with
      | Some z => Ok (Z_lt_float z y)
      | None => Raise (TypeError Unorderable)
      end
  | _, _ =>
      match as_int a, as_int b with
      | Some x, Some y => Ok (x <? y)
      | _, _ => Raise (TypeError Unorderable)
      end
  end.

#[global] Instance pyval_inhabited : Inhabited pyval := populate PNone.

(** ** [class Note] *)

Module Note.

Record t := mk {
  start : pyval;
  duration : pyval;
  pitch : pyval;
  velocity : pyval;
  channel : pyval;
  channel_name : pyval
}.

(** Field names in declaration order; the first four have no default. *)
Definition required : list string := ["start"; "duration"; "pitch"; "velocity"].
Definition fields : list string := required ++ ["channel"; "channel_name"].

Definition default_channel : pyval := PInt 0.
Definition default_channel_name : pyval := PStr "".

Definition missing (kw : dict) : list string :=
  filter (fun k => kw !! k = None) required.

(** The error for keyword arguments with a key that is no field.  The
    call binds [self] by position, so the key [self] gets "multiple values"
    and any other such key "unexpected keyword"; the keys are visited in the
    order of the mapping, which a [gmap] does not keep: when [self] and
    another such key are both there the error is one of the two. *)
Definition keyword_error (kw : dict) : type_error :=
  match kw !! "self" with
  | None => UnexpectedKeyword
  | Some _ =>
      if forallb (fun k => bool_decide (k ∈ "self" :: fields)) (map_to_list kw).*1
      then MultipleValues
      else UnexpectedOrMultiple
  end.

(** The generated [__init__] called with the keyword arguments [kw]:
    a keyword that is no field is rejected first, then missing required
    fields are reported together. *)
Definition init_kwargs (kw : dict) : result t :=
  if forallb (fun k => bool_decide (k ∈ fields)) (map_to_list kw).*1 then
    match missing kw with
    | [] =>
        Ok {| start := kw !!! "start";
              duration := kw !!! "duration";
              pitch := kw !!! "pitch";
              velocity := kw !!! "velocity";
              channel := default default_channel (kw !! "channel");
              channel_name := default default_channel_name (kw !! "channel_name") |}
    | ks => Raise (TypeError (MissingArguments ks))
    end
  else Raise (TypeError (keyword_error kw)).

(** The constructor called on the unpacking of an arbitrary object [v]. *)
Definition splat (v : pyval) : result t :=
  match v with
  | PDict kw => init_kwargs kw
  | _ => Raise (TypeError NotAMapping)
  end.

(** [dataclasses.asdict] *)
Definition asdict (n : t) : dict :=
  <["start" := start n]> (<["duration" := duration n]> (<["pitch" := pitch n]>
  (<["velocity" := velocity n]> (<["channel" := channel n]>
  (<["channel_name" := channel_name n]> ∅))))).

Definition to_dict (n : t) : dict :=
  let d := asdict n in
  if negb (truthy (d !!! "channel_name")) then delete "channel_name" d else d.

End Note.

(** ** What [mido.MidiFile] delivers *)

Module Mido.

(** A message of a track: [time] is the delta time in ticks; the other
    attributes depend on [type]. *)
Inductive attrs :=
  | set_tempo (tempo : Z)
  | note_on (note velocity channel : Z)
  | note_off (note velocity channel : Z)
  | other (type : string).

Record Message := { time : Z; body : attrs }.

Record MidiFile := { ticks_per_beat : Z; tracks : list (list Message) }.

(** The ranges that the parser enforces on the bytes of a file: data bytes
    have 7 bits, a channel 4, a tempo 24; a delta time is a variable-length
    quantity, not negative; the division is a signed 16-bit field. *)
Definition attrs_in_range (a : attrs) : Prop :=
  match a with
  | set_tempo tempo => 0 <= tempo < 2 ^ 24
  | note_on n v c | note_off n v c => 0 <= n <= 127 /\ 0 <= v <= 127 /\ 0 <= c <= 15
  | other _ => True
  end.

Definition in_range (mid : MidiFile) : Prop :=
  - 2 ^ 15 <= ticks_per_beat mid < 2 ^ 15 /\
  Forall (Forall (fun m => 0 <= time m /\ attrs_in_range (body m))) (tracks mid).

End Mido.

(** ** Files *)

Inductive file :=
  | JsonFile (data : pyval)          (* a text that [json.load] parses to [data] *)
  | SmfFile (mid : Mido.MidiFile)    (* a file that [mido.MidiFile] parses to [mid] *)
  | OtherFile.

Abbreviation files := (gmap string file).

(** [with open(path, 'r') as f: json.load(f)] *)
Definition read_json (path : string) (fs : files) : result pyval :=
  match fs !! path with
  | None => Raise FileNotFoundError
  | Some (JsonFile data) => Ok data
  | Some _ => Raise ValueError
  end.

(** [mido.MidiFile(path)] *)
Definition read_midi (path : string) (fs : files) : result Mido.MidiFile :=
  match fs !! path with
  | None => Raise FileNotFoundError
  | Some (SmfFile mid) => Ok mid
  | Some _ => Raise MidiReadError
  end.

(** ** [class NoteCollection] *)

Module NoteCollection.

Record t := mk {
  version : pyval;
  source : pyval;
  metadata : pyval;
  notes : list Note.t
}.

Definition default_metadata : dict :=
  <["title" := PStr ""]> (<["bpm" := PInt 120]>
  (<["time_signature" := PStr "4/4"]> (<["duration_seconds" := PFloat f_zero]> ∅))).

(** The constructor with [__post_init__]; [notes] is never passed. *)
Definition init (version source metadata : pyval) : t :=
  {| version := version;
     source := source;
     metadata := match metadata with PNone => PDict default_metadata | m => m end;
     notes := [] |}.

Definition append (c : t) (n : Note.t) : t :=
  {| version := version c; source := source c; metadata := metadata c;
     notes := notes c ++ [n] |}.

Definition set_notes (c : t) (l : list Note.t) : t :=
  {| version := version c; source := source c; metadata := metadata c;
     notes := l |}.

Definition to_dict (c : t) : dict :=
  <["version" := version c]> (<["source" := source c]>
  (<["metadata" := metadata c]>
  (<["notes" := PList ((fun n => PDict (Note.to_dict n)) <$> notes c)]> ∅))).

(** [save]: the file at [path] then holds the JSON text of [to_dict]. *)
Definition save (c : t) (path : string) (fs : files) : files :=
  <[path := JsonFile (PDict (to_dict c))]> fs.

(** The body of [load] after [json.load] returned [data]. *)
Definition load_data (data : pyval) : result t :=
  version ← py_get data "version" (PStr "1.0");
  source ← py_get data "source" (PStr "manual");
  metadata ← py_get data "metadata" (PDict ∅);
  let collection := init version source metadata in
  stored ← py_get data "notes" (PList []);
  items ← py_iter stored;
  for_each (fun c note_data => n ← Note.splat note_data; Ok (append c n))
           collection items.

Definition load (path : string) (fs : files) : result t :=
  data ← read_json path fs; load_data data.

End NoteCollection.

(** ** [list.sort(key=lambda n: n.start)] *)

(** [list.sort] is stable and compares keys with [<] only.  Whenever [<] is a
    total preorder on the keys there is one stable sorted arrangement, the
    one that insertion from left to right computes: every element goes in
    front of the first element of the sorted prefix that is greater.  With a
    NaN among the keys [<] is no such order and the arrangement that
    [list.sort] leaves depends on its runs and merges, which are not
    modelled: the result is then still a permutation of the input, and the
    statements below rely on nothing else unless they assume starts that
    are numbers. *)
Fixpoint insort (x : Note.t) (l : list Note.t) : result (list Note.t) :=
  match l with
  | [] => Ok [x]
  | y :: l' =>
      b ← py_lt (Note.start x) (Note.start y);
      if b : bool then Ok (x :: y :: l') else r ← insort x l'; Ok (y :: r)
  end.

Definition sort_by_start (l : list Note.t) : result (list Note.t) :=
  for_each (fun sorted x => insort x sorted) [] l.

(** ** [pathlib.Path]: the attributes the program reads *)

(** A path object is modelled by the string it was built from, read as
    [pathlib] reads it on POSIX: the string is split at the slashes, empty
    components and the component [.] are dropped ([..] is kept), a leading
    slash is the root (two leading slashes stay two, three or more are one).
    [str] is the string of the path, the name that [open] and [exists]
    receive; [stem] and [suffix] split the last component. *)
Module Path.

Definition is_slash (a : ascii) : bool := Ascii.eqb a "/".
Definition is_dot (a : ascii) : bool := Ascii.eqb a ".".

(** The pieces between the slashes. *)
Fixpoint split (l : list ascii) : list (list ascii) :=
  match l with
  | [] => [[]]
  | a :: l' =>
      if is_slash a then [] :: split l'
      else match split l' with
           | c :: cs => (a :: c) :: cs
           | [] => [[a]]
           end
  end.

(** A piece that counts as a component: not empty, not a single dot. *)
Definition kept (c : list ascii) : bool :=
  match c with
  | [] => false
  | [a] => negb (is_dot a)
  | _ => true
  end.

Definition components (path : string) : list (list ascii) :=
  List.filter kept (split (String.list_ascii_of_string path)).

Definition root (path : string) : list ascii :=
  match String.list_ascii_of_string path with
  | a :: rest =>
      if is_slash a then
        match rest with
        | [b] => if is_slash b then [a; b] else [a]
        | b :: c :: _ => if is_slash b && negb (is_slash c) then [a; b] else [a]
        | [] => [a]
        end
      else []
  | [] => []
  end.

Fixpoint join (cs : list (list ascii)) : list ascii :=
  match cs with
  | [] => []
  | [c] => c
  | c :: cs' => c ++ "/"%char :: join cs'
  end.

(** [str(path)] *)
Definition str (path : string) : string :=
  match root path, components path with
  | [], [] => "."
  | r, cs => String.string_of_list_ascii (r ++ join cs)
  end.

(** [path.name]: the last component, empty when there is none. *)
Definition name (path : string) : list ascii :=
  default [] (last (components path)).

Fixpoint take_until (p : ascii -> bool) (l : list ascii) : list ascii :=
  match l with
  | [] => []
  | a :: l' => if p a then [] else a :: take_until p l'
  end.

Fixpoint drop_until (p : ascii -> bool) (l : list ascii) : list ascii :=
  match l with
  | [] => []
  | a :: l' => if p a then l else drop_until p l'
  end.

(** The name, reversed. *)
Definition rev_name (path : string) : list ascii := rev (name path).

(** The name splits at its last dot when that dot is neither its first nor
    its last character. *)
Definition split_name (path : string) : list ascii * list ascii :=
  let rn := rev_name path in
  let ext := take_until is_dot rn in
  match drop_until is_dot rn with
  | dot :: (_ :: _) as base =>
      match ext with
      | [] => (rev rn, [])
      | _ => (rev base, dot :: rev ext)
      end
  | _ => (rev rn, [])
  end.

Definition stem (path : string) : string :=
  String.string_of_list_ascii (fst (split_name path)).

Definition suffix (path : string) : string :=
  String.string_of_list_ascii (snd (split_name path)).

(** [str.lower] on the ASCII letters. *)
Definition lower_ascii (a : ascii) : ascii :=
  let n := Ascii.N_of_ascii a in
  if ((65 <=? n) && (n <=? 90))%N then Ascii.ascii_of_N (n + 32) else a.

Definition lower (s : string) : string :=
  String.string_of_list_ascii (lower_ascii <$> String.list_ascii_of_string s).

End Path.

(** ** [class SynToMidConverter] *)

Module SynToMidConverter.
Import Mido.

(** The variables of the loop over the messages of one track. *)
Record locals := {
  current_time : float;
  tempo : Z;
  collection : NoteCollection.t
}.

(** The body of [for msg in track]. *)
Definition on_message (tpb : Z) (st : locals) (msg : Message) : result locals :=
  dt ← float_of_int (time msg);
  let current_time := fadd (current_time st) dt in
  match body msg with
  | set_tempo new_tempo =>
      Ok {| current_time := current_time; tempo := new_tempo;
            collection := collection st |}
  | note_on note velocity channel =>
      if 0 <? velocity then
        let duration := f_quarter in
        seconds_per_beat ← int_truediv (tempo st) 1000000;
        ticks ← float_of_int tpb;
        time_seconds ← float_truediv (fmul current_time seconds_per_beat) ticks;
        v ← float_of_int velocity;
        velocity_norm ← float_truediv v f_127;
        let note :=
          {| Note.start := PFloat time_seconds;
             Note.duration := PFloat duration;
             Note.pitch := PInt note;
             Note.velocity := PFloat velocity_norm;
             Note.channel := PInt channel;
             Note.channel_name := Note.default_channel_name |} in
        Ok {| current_time := current_time; tempo := tempo st;
              collection := NoteCollection.append (collection st) note |}
      else
        Ok {| current_time := current_time; tempo := tempo st;
              collection := collection st |}
  | _ =>
      Ok {| current_time := current_time; tempo := tempo st;
            collection := collection st |}
  end.

(** The body of [for track in mid.tracks]. *)
Definition on_track (tpb : Z) (c : NoteCollection.t) (track : list Message)
  : result NoteCollection.t :=
  st ← for_each (on_message tpb)
       {| current_time := f_zero; tempo := 500000; collection := c |} track;
  Ok (collection st).

Definition default_metadata (midi_path : string) : dict :=
  <["title" := PStr (Path.stem midi_path)]> (<["bpm" := PInt 120]> ∅).

(** [from_midi_file]; [mido_installed] tells whether [import mido]
    succeeds, the result is [None] when it does not. *)
Definition from_midi_file (mido_installed : bool) (midi_path : string)
    (metadata : pyval) (fs : files) : result (option NoteCollection.t) :=
  if negb mido_installed then Ok None
  else
    let collection :=
      NoteCollection.init (PStr "1.0") (PStr "syntomid")
        (py_or metadata (PDict (default_metadata midi_path))) in
    mid ← read_midi midi_path fs;
    c ← for_each (on_track (ticks_per_beat mid)) collection (tracks mid);
    sorted ← sort_by_start (NoteCollection.notes c);
    Ok (Some (NoteCollection.set_notes c sorted)).

End SynToMidConverter.

(** ** [class FLStudioConverter] *)

Module FLStudioConverter.

(** The body of [for note_data in fl_data.get("notes", [])]. *)
Definition on_note (c : NoteCollection.t) (note_data : pyval)
  : result NoteCollection.t :=
  start ← py_getitem note_data "start";
  duration ← py_getitem note_data "duration";
  pitch ← py_getitem note_data "pitch";
  velocity ← py_getitem note_data "velocity";
  channel ← py_get note_data "channel" (PInt 0);
  channel_name ← py_get note_data "channel_name" (PStr "");
  Ok (NoteCollection.append c
        {| Note.start := start; Note.duration := duration; Note.pitch := pitch;
           Note.velocity := velocity; Note.channel := channel;
           Note.channel_name := channel_name |}).

(** The body of [from_json] after [json.load] returned [fl_data]. *)
Definition from_json_data (json_path : string) (fl_data : pyval)
  : result NoteCollection.t :=
  bpm ← py_get fl_data "bpm" (PInt 120);
  time_signature ← py_get fl_data "time_signature" (PStr "4/4");
  duration_seconds ← py_get fl_data "duration_seconds" (PFloat f_zero);
  let collection :=
    NoteCollection.init (PStr "1.0") (PStr "fl_studio")
      (PDict (<["title" := PStr (Path.stem json_path)]> (<["bpm" := bpm]>
             (<["time_signature" := time_signature]>
             (<["duration_seconds" := duration_seconds]> ∅))))) in
  stored ← py_get fl_data "notes" (PList []);
  items ← py_iter stored;
  for_each on_note collection items.

Definition from_json (json_path : string) (fs : files) : result NoteCollection.t :=
  fl_data ← read_json json_path fs; from_json_data json_path fl_data.

End FLStudioConverter.

(** ** [main] *)

Inductive source_choice := syntomid | fl_studio | auto.

(** The namespace that [argparse] returns. *)
Record Args := {
  input : string;
  output : option string;
  source : source_choice;
  title : option string;
  bpm : Z
}.

Definition opt_str (o : option string) : pyval :=
  match o with Some s => PStr s | None => PNone end.

Definition str_of (v : pyval) : string :=
  match v with PStr s => s | _ => "" end.

(** The source after auto-detection, [None] when the suffix is unknown;
    the suffix is the one of [Path(args.input)]. *)
Definition detect (args : Args) : option source_choice :=
  match source args with
  | auto =>
      if String.eqb (Path.lower (Path.suffix (input args))) ".mid" then Some syntomid
      else if String.eqb (Path.lower (Path.suffix (input args))) ".json" then Some fl_studio
      else None
  | s => Some s
  end.

(** [main]: the exit status and the files afterwards; an exception of an
    importer is not caught.  [input_path] is the string of
    [Path(args.input)], the name under which the file is looked up, opened
    and handed to the importers. *)
Definition main (mido_installed : bool) (args : Args) (fs : files)
  : result (Z * files) :=
  let input_path := Path.str (input args) in
  match fs !! input_path with
  | None => Ok (1, fs)
  | Some _ =>
      match detect args with
      | None => Ok (1, fs)
      | Some source =>
          collection ←
            match source with
            | syntomid =>
                SynToMidConverter.from_midi_file mido_installed input_path
                  (PDict (<["title" := py_or (opt_str (title args))
                                             (PStr (Path.stem input_path))]>
                         (<["bpm" := PInt (bpm args)]> ∅))) fs
            | _ =>
                c ← FLStudioConverter.from_json input_path fs; Ok (Some c)
            end;
          match collection with
          | None => Ok (1, fs)
          | Some c =>
              let output_path :=
                Path.str (str_of (py_or (opt_str (output args))
                                        (PStr (Path.stem input_path +:+ ".json")))) in
              Ok (0, NoteCollection.save c output_path fs)
          end
      end
  end.

(** ** Vocabulary of the statements *)

(** A stored record [r] has every field without default. *)
Definition complete (r : dict) : Prop :=
  forall k, k ∈ Note.required -> is_Some (r !! k).

(** A stored record [r] has no key that is not a field of [Note]. *)
Definition only_fields (r : dict) : Prop :=
  forall k, is_Some (r !! k) -> k ∈ Note.fields.

(** The note whose fields are the stored fields of [r], the two optional
    ones defaulted. *)
Definition note_of_record (r : dict) : Note.t :=
  {| Note.start := r !!! "start";
     Note.duration := r !!! "duration";
     Note.pitch := r !!! "pitch";
     Note.velocity := r !!! "velocity";
     Note.channel := default (PInt 0) (r !! "channel");
     Note.channel_name := default (PStr "") (r !! "channel_name") |}.

Definition record_of (v : pyval) : dict :=
  match v with PDict r => r | _ => ∅ end.

(** [v] is a mapping with the four required fields. *)
Definition complete_record (v : pyval) : Prop :=
  exists r, v = PDict r /\ complete r.

(** [v] is a mapping that the constructor of [Note] accepts. *)
Definition loadable_record (v : pyval) : Prop :=
  exists r, v = PDict r /\ complete r /\ only_fields r.

(** The note read back from a serialized note: the same note, except that a
    [channel_name] that tests false comes back as the empty string. *)
Definition reloaded (n : Note.t) : Note.t :=
  if truthy (Note.channel_name n) then n
  else {| Note.start := Note.start n; Note.duration := Note.duration n;
          Note.pitch := Note.pitch n; Note.velocity := Note.velocity n;
          Note.channel := Note.channel n;
          Note.channel_name := Note.default_channel_name |}.

(** A note has a name: a string that is not empty. *)
Definition named (n : Note.t) : Prop :=
  exists s, Note.channel_name n = PStr s /\ s <> "".

(** The collection that [load] builds before it reads the notes of [d]. *)
Definition loaded_header (d : dict) : NoteCollection.t :=
  NoteCollection.init (default (PStr "1.0") (d !! "version"))
                      (default (PStr "manual") (d !! "source"))
                      (default (PDict ∅) (d !! "metadata")).

(** The collection that [from_json] builds before it reads the notes of [d]. *)
Definition fl_header (json_path : string) (d : dict) : NoteCollection.t :=
  NoteCollection.init (PStr "1.0") (PStr "fl_studio")
    (PDict (<["title" := PStr (Path.stem json_path)]>
           (<["bpm" := default (PInt 120) (d !! "bpm")]>
           (<["time_signature" := default (PStr "4/4") (d !! "time_signature")]>
           (<["duration_seconds" := default (PFloat f_zero) (d !! "duration_seconds")]>
            ∅))))).

(** The note that [from_json] builds from one entry. *)
Definition fl_note (note_data : pyval) : result Note.t :=
  start ← py_getitem note_data "start";
  duration ← py_getitem note_data "duration";
  pitch ← py_getitem note_data "pitch";
  velocity ← py_getitem note_data "velocity";
  channel ← py_get note_data "channel" (PInt 0);
  channel_name ← py_get note_data "channel_name" (PStr "");
  Ok {| Note.start := start; Note.duration := duration; Note.pitch := pitch;
        Note.velocity := velocity; Note.channel := channel;
        Note.channel_name := channel_name |}.

(** The collection [c] with the notes [l] appended. *)
Definition with_notes (c : NoteCollection.t) (l : list Note.t) : NoteCollection.t :=
  NoteCollection.set_notes c (NoteCollection.notes c ++ l).

(** The loop body that converts an item with [f] and appends the note. *)
Definition append_each {A} (f : A -> result Note.t)
    (c : NoteCollection.t) (x : A) : result NoteCollection.t :=
  n ← f x; Ok (NoteCollection.append c n).

(** *** Order of floats *)

(** A position for every number that is not NaN: the sign class first, then
    exponent and mantissa, both negated for negative numbers.  [SFcompare]
    orders numbers as it orders their positions lexicographically. *)
Definition rank (f : float) : Z * Z * Z :=
  match f with
  | S754_nan => (0, 0, 0)
  | S754_zero _ => (0, 0, 0)
  | S754_infinity s => (if s then -2 else 2, 0, 0)
  | S754_finite s m e => if s then (-1, - e, Z.neg m) else (1, e, Z.pos m)
  end.

Definition lex_lt (x y : Z * Z * Z) : Prop :=
  let '(a1, a2, a3) := x in
  let '(b1, b2, b3) := y in
  a1 < b1 \/ (a1 = b1 /\ (a2 < b2 \/ (a2 = b2 /\ a3 < b3))).

(** *** Notes of the MIDI importer *)

(** The start of a note as a float (NaN when the field holds no float). *)
Definition start_of (n : Note.t) : float :=
  match Note.start n with PFloat f => f | _ => S754_nan end.

(** The start of the note is a float that is a number. *)
Definition timed (n : Note.t) : Prop :=
  exists f, Note.start n = PFloat f /\ is_nan f = false.

(** The start of [a] is at most the start of [b]. *)
Definition le_start (a b : Note.t) : Prop :=
  SFleb (start_of a) (start_of b) = true.

(** Starts never decrease along the list. *)
Definition ordered (l : list Note.t) : Prop :=
  forall (i j : nat) a b, (i < j)%nat -> l !! i = Some a -> l !! j = Some b ->
    SFleb (start_of a) (start_of b) = true.

(** The notes of [l] that start at [t], in the order of [l]. *)
Definition starting_at (t : float) (l : list Note.t) : list Note.t :=
  filter (fun n => SFeqb (start_of n) t = true) l.

(** The normalized velocity of the raw velocity [v] lies in (0.0, 1.0]. *)
Definition velocity_in_range (v : Z) : bool :=
  SFltb f_zero (fdiv (Z2F v) f_127) && SFleb (fdiv (Z2F v) f_127) f_one.

(** A message that the importer turns into a note. *)
Definition sounding (m : Mido.Message) : bool :=
  match Mido.body m with
  | Mido.note_on _ velocity _ => 0 <? velocity
  | _ => false
  end.

(** The note for message [m] when the clock of the track stands at
    [ticks] and the tempo is [tempo]. *)
Definition note_of_message (tpb : Z) (ticks : float) (tempo : Z)
    (m : Mido.Message) : option Note.t :=
  match Mido.body m with
  | Mido.note_on note velocity channel =>
      if 0 <? velocity then
        Some {| Note.start :=
                  PFloat (fdiv (fmul ticks (fdiv (Z2F tempo) (Z2F 1000000)))
                               (Z2F tpb));
                Note.duration := PFloat f_quarter;
                Note.pitch := PInt note;
                Note.velocity := PFloat (fdiv (Z2F velocity) f_127);
                Note.channel := PInt channel;
                Note.channel_name := PStr "" |}
      else None
  | _ => None
  end.

(** The note [n] carries the data of the message [m]: [m] is a note-on with
    a raw velocity above 0, pitch and channel of [n] are those of [m], and
    the velocity of [n] is that raw velocity divided by 127.0. *)
Definition carries (m : Mido.Message) (n : Note.t) : Prop :=
  exists p v ch,
    Mido.body m = Mido.note_on p v ch /\ 0 < v /\
    Note.pitch n = PInt p /\ Note.channel n = PInt ch /\
    Note.velocity n = PFloat (fdiv (Z2F v) f_127).

(** The velocity of the note is a float in (0.0, 1.0]. *)
Definition normalized (n : Note.t) : Prop :=
  exists f, Note.velocity n = PFloat f /\
            SFltb f_zero f = true /\ SFleb f f_one = true.

(** The description of the importer in the words of its specification: every
    track on its own, a clock of ticks that starts at 0 and adds the delta
    time of each message, a tempo that starts at 500000 and follows the
    tempo messages of the track, a note for every note-on with a velocity
    above 0, then one stable sort. *)
Module Spec.
Import Mido.

(** The clock after the messages [msgs] of a track. *)
Definition clock (msgs : list Message) : float :=
  foldl (fun t m => fadd t (Z2F (time m))) f_zero msgs.

(** The tempo after the messages [msgs] of a track. *)
Definition tempo (msgs : list Message) : Z :=
  foldl (fun tp m => match body m with set_tempo t => t | _ => tp end)
        500000 msgs.

(** The note of the message at position [i] of [track], if it makes one. *)
Definition note_at (tpb : Z) (track : list Message) (i : nat) : option Note.t :=
  m ← track !! i;
  note_of_message tpb (clock (take (S i) track)) (tempo (take (S i) track)) m.

Definition track_notes (tpb : Z) (track : list Message) : list Note.t :=
  omap (note_at tpb track) (seq 0 (length track)).

(** The notes in emission order: track after track. *)
Definition emitted (mid : MidiFile) : list Note.t :=
  concat (track_notes (ticks_per_beat mid) <$> tracks mid).

End Spec.

(** ** Sample inputs *)

Module Sample.
Import Mido.

Definition f_08 : float := fdiv (Z2F 4) (Z2F 5).              (* 0.8 *)

(** [{"bpm":140,"notes":[{"start":0,"duration":1,"pitch":64,"velocity":0.8}]}] *)
Definition fl_entry : dict :=
  <["start" := PInt 0]> (<["duration" := PInt 1]> (<["pitch" := PInt 64]>
  (<["velocity" := PFloat f_08]> ∅))).
Definition fl_song : dict :=
  <["bpm" := PInt 140]> (<["notes" := PList [PDict fl_entry]]> ∅).

(** [{"bpm":140}] *)
Definition fl_no_notes : dict := <["bpm" := PInt 140]> ∅.

(** A stored collection whose only record has every field and the key [foo]. *)
Definition extra_record : dict := <["foo" := PInt 1]> fl_entry.
Definition extra_stored : dict := <["notes" := PList [PDict extra_record]]> ∅.

(** A stored collection whose only record lacks [pitch] and [velocity]. *)
Definition short_record : dict :=
  <["start" := PInt 0]> (<["duration" := PInt 1]> ∅).
Definition short_stored : dict := <["notes" := PList [PDict short_record]]> ∅.

(** A stored collection without [version] and [source]. *)
Definition bare_stored : dict := <["notes" := PList [PDict fl_entry]]> ∅.

Definition lead : Note.t :=
  {| Note.start := PFloat f_zero; Note.duration := PFloat f_quarter;
     Note.pitch := PInt 60; Note.velocity := PFloat f_08;
     Note.channel := PInt 0; Note.channel_name := PStr "lead" |}.
Definition anonymous : Note.t :=
  {| Note.start := PFloat f_half; Note.duration := PFloat f_quarter;
     Note.pitch := PInt 62; Note.velocity := PFloat f_08;
     Note.channel := PInt 1; Note.channel_name := PStr "" |}.
Definition named_song : NoteCollection.t :=
  NoteCollection.set_notes
    (NoteCollection.init (PStr "1.0") (PStr "manual") PNone) [lead].
Definition mixed_song : NoteCollection.t :=
  NoteCollection.set_notes
    (NoteCollection.init (PStr "1.0") (PStr "manual") PNone) [lead; anonymous].

(** One track: a tempo of 500000 at tick 0, a note-on (60, velocity 100,
    channel 0) at tick 480; 480 ticks per beat. *)
Definition song : MidiFile :=
  {| ticks_per_beat := 480;
     tracks := [[ {| time := 0; body := set_tempo 500000 |};
                  {| time := 480; body := note_on 60 100 0 |} ]] |}.
Definition song_files : files := <["song.mid" := SmfFile song]> ∅.
Definition song_note : Note.t :=
  {| Note.start := PFloat f_half; Note.duration := PFloat f_quarter;
     Note.pitch := PInt 60; Note.velocity := PFloat (fdiv (Z2F 100) f_127);
     Note.channel := PInt 0; Note.channel_name := PStr "" |}.
Definition song_out : NoteCollection.t :=
  NoteCollection.set_notes
    (NoteCollection.init (PStr "1.0") (PStr "syntomid")
       (PDict (<["title" := PStr "song"]> (<["bpm" := PInt 120]> ∅))))
    [song_note].
Definition song_args : Args :=
  {| input := "song.mid"; output := None; source := auto; title := None;
     bpm := 120 |}.

(** Two tracks: the first sounds 60 at tick 480, then has a note-on with
    velocity 0 and a note-off; the second sounds 40 at tick 0 and 64 at tick
    480.  The notes 60 and 64 start together. *)
Definition duet : MidiFile :=
  {| ticks_per_beat := 480;
     tracks := [ [ {| time := 480; body := note_on 60 100 0 |};
                   {| time := 240; body := note_on 60 0 0 |};
                   {| time := 0; body := note_off 60 64 0 |} ];
                 [ {| time := 0; body := note_on 40 127 1 |};
                   {| time := 480; body := note_on 64 1 1 |} ] ] |}.
Definition duet_files : files := <["duet.mid" := SmfFile duet]> ∅.
Definition duet_note (ticks pitch velocity channel : Z) : Note.t :=
  {| Note.start := PFloat (fdiv (fmul (Z2F ticks) f_half) (Z2F 480));
     Note.duration := PFloat f_quarter;
     Note.pitch := PInt pitch; Note.velocity := PFloat (fdiv (Z2F velocity) f_127);
     Note.channel := PInt channel; Note.channel_name := PStr "" |}.
Definition duet_sorted : list Note.t :=
  [duet_note 0 40 127 1; duet_note 480 60 100 0; duet_note 480 64 1 1].

Definition duet_out : NoteCollection.t :=
  NoteCollection.set_notes
    (NoteCollection.init (PStr "1.0") (PStr "syntomid")
       (PDict (<["title" := PStr "duet"]> (<["bpm" := PInt 120]> ∅))))
    duet_sorted.

(** One track whose clock overflows: two delta times of 2^1023 ticks around
    a tempo of 0 (the parser reads a variable-length quantity to its last
    byte, whatever its length, and checks no tempo).  The first note starts
    at 0.0; for the second the clock is infinite and the seconds per beat
    are 0.0. *)
Definition overflow : MidiFile :=
  {| ticks_per_beat := 480;
     tracks := [[ {| time := 0; body := note_on 60 100 0 |};
                  {| time := 2 ^ 1023; body := set_tempo 0 |};
                  {| time := 2 ^ 1023; body := note_on 62 100 0 |} ]] |}.
Definition overflow_files : files := <["overflow.mid" := SmfFile overflow]> ∅.

End Sample.

(** ** Vocabulary of the further properties *)

(** The path that [main] writes: [--output], or the stem of the input with
    [.json] when the option is absent or empty. *)
Definition output_path (args : Args) : string :=
  Path.str (str_of (py_or (opt_str (output args))
                          (PStr (Path.stem (Path.str (input args)) +:+ ".json")))).

(** The start of the note is a float. *)
Definition floated (n : Note.t) : Prop :=
  exists f, Note.start n = PFloat f.

(** Every delta time of the file is exact as a float. *)
Definition small_times (mid : Mido.MidiFile) : Prop :=
  Forall (Forall (fun m => Mido.time m < 2 ^ 53)) (Mido.tracks mid).

(** A track without a message that makes a note. *)
Definition silent (track : list Mido.Message) : Prop :=
  Forall (fun m => sounding m = false) track.

(** Two mappings that agree on the six fields of [Note]. *)
Definition same_fields (v v' : pyval) : Prop :=
  exists r r', v = PDict r /\ v' = PDict r' /\
    forall k, k ∈ Note.fields -> r !! k = r' !! k.

(** The exception of a JSON text that is no collection: a top level that is
    not a mapping has no [get]; a value of [notes] that is None, a bool or a
    number cannot be iterated. *)
Definition shape_error (data : pyval) : option exn :=
  match data with
  | PDict d =>
      match d !! "notes" with
      | Some (PNone | PBool _ | PInt _ | PFloat _) => Some (TypeError NotIterable)
      | _ => None
      end
  | _ => Some AttributeError
  end.

(** The channel name survives a save: it tests true, or it is the empty
    string. *)
Definition storable (n : Note.t) : Prop :=
  truthy (Note.channel_name n) = true \/ Note.channel_name n = PStr "".

(** The title that [main] hands to the MIDI importer: [--title], or the stem
    of the input when the option is absent or empty. *)
Definition title_of (args : Args) : string :=
  match title args with
  | Some s => if String.eqb s "" then Path.stem (Path.str (input args)) else s
  | None => Path.stem (Path.str (input args))
  end.

(** The metadata that [from_json] sets for a file that has none of the keys
    [bpm], [time_signature] and [duration_seconds]. *)
Definition fl_default_metadata (json_path : string) : dict :=
  <["title" := PStr (Path.stem json_path)]> (<["bpm" := PInt 120]>
  (<["time_signature" := PStr "4/4"]> (<["duration_seconds" := PFloat f_zero]> ∅))).

(** The metadata that [load] sets for the stored value [stored] of the key
    [metadata]. *)
Definition loaded_metadata (stored : option pyval) : pyval :=
  match stored with
  | None => PDict ∅
  | Some PNone => PDict NoteCollection.default_metadata
  | Some m => m
  end.

(** The [source] of the collection that [main] converts the input to. *)
Definition written_source (args : Args) : string :=
  match detect args with
  | Some syntomid => "syntomid"
  | _ => "fl_studio"
  end.

(** Further sample inputs. *)
Module Sample2.
Import Mido.

(** A stored collection with [metadata] null. *)
Definition null_metadata_stored : dict :=
  <["metadata" := PNone]> (<["notes" := PList [PDict Sample.fl_entry]]> ∅).

(** A note whose channel name is None. *)
Definition unnamed : Note.t :=
  {| Note.start := PFloat f_half; Note.duration := PFloat f_quarter;
     Note.pitch := PInt 62; Note.velocity := PFloat Sample.f_08;
     Note.channel := PInt 1; Note.channel_name := PNone |}.
Definition unnamed_song : NoteCollection.t :=
  NoteCollection.set_notes
    (NoteCollection.init (PStr "1.0") (PStr "manual") PNone) [Sample.lead; unnamed].

(** [Sample.duet] behind a track that only sets the tempo. *)
Definition tempo_track : list Message :=
  [ {| time := 0; body := set_tempo 250000 |};
    {| time := 960; body := other "end_of_track" |} ].
Definition conducted : MidiFile :=
  {| ticks_per_beat := 480; tracks := tempo_track :: tracks Sample.duet |}.

(** [Sample.song] with a division of 0, and a silent file with that division. *)
Definition undivided : MidiFile :=
  {| ticks_per_beat := 0; tracks := tracks Sample.song |}.
Definition undivided_silent : MidiFile :=
  {| ticks_per_beat := 0; tracks := [tempo_track] |}.

Definition fl_args : Args :=
  {| input := "fl.json"; output := None; source := auto; title := None;
     bpm := 120 |}.
Definition fl_files : files := <["fl.json" := JsonFile (PDict Sample.fl_song)]> ∅.

(** A stored collection whose first record lacks [pitch] and [velocity] and
    whose second record has every field and the key [foo]. *)
Definition mixed_stored : dict :=
  <["notes" := PList [PDict Sample.short_record; PDict Sample.extra_record]]> ∅.

(** [Sample.fl_song] with keys that the importer does not read. *)
Definition noisy_song : dict :=
  <["creator" := PStr "FL"]> (<["bpm" := PInt 140]>
  (<["notes" := PList [PDict Sample.extra_record]]> ∅)).

Definition text_args : Args :=
  {| input := "notes.txt"; output := None; source := auto; title := None;
     bpm := 120 |}.
Definition fl_titled_args : Args :=
  {| input := "fl.json"; output := None; source := auto; title := Some "Etude";
     bpm := 90 |}.


(** The input [song.mid/.] with an empty title: [pathlib] names it
    [song.mid], its stem is [song]. *)
Definition dotted_midi_args : Args :=
  {| input := "song.mid/."; output := None; source := auto; title := Some "";
     bpm := 90 |}.


End Sample2.

(** * Properties *)

(** ** The result monad and loops *)

Lemma bind_Ok {A B} (m : result A) (f : A -> result B) (b : B) :
  (m ≫= f) = Ok b -> exists a, m = Ok a /\ f a = Ok b.
Proof. destruct m as [a|e]; simpl; [eauto | discriminate]. Qed.

Lemma bind_Raise {A B} (m : result A) (f : A -> result B) (e : exn) :
  (m ≫= f) = Raise e -> m = Raise e \/ exists a, m = Ok a /\ f a = Raise e.
Proof. destruct m as [a|e']; simpl; [eauto | intros [= ->]; auto]. Qed.

Ltac inv_bind H :=
  let a := fresh "a" in
  let Ha := fresh "Ha" in
  apply bind_Ok in H; destruct H as (a & Ha & H).

Section AppendLoop.
Context {A : Type} (f : A -> result Note.t).

Lemma append_each_Ok c x n :
  f x = Ok n -> append_each f c x = Ok (NoteCollection.append c n).
Proof. unfold append_each. intros ->. reflexivity. Qed.

Lemma append_each_Raise c x e :
  f x = Raise e -> append_each f c x = Raise e.
Proof. unfold append_each. intros ->. reflexivity. Qed.

(** Every item converts: the loop appends the converted items in order. *)
Lemma append_loop_Ok c l ns :
  Forall2 (fun x n => f x = Ok n) l ns ->
  for_each (append_each f) c l =
    Ok (NoteCollection.set_notes c (NoteCollection.notes c ++ ns)).
Proof.
  intros H. revert c. induction H as [|x n l ns Hx _ IH]; intros c; cbn [for_each].
  - rewrite app_nil_r. destruct c; reflexivity.
  - rewrite (append_each_Ok c x n Hx). simpl. rewrite IH. simpl.
    rewrite <- app_assoc. reflexivity.
Qed.

(** The first item that does not convert decides the exception. *)
Lemma append_loop_Raise c pre x post e :
  Forall (fun y => is_Ok (f y)) pre -> f x = Raise e ->
  for_each (append_each f) c (pre ++ x :: post) = Raise e.
Proof.
  intros Hpre Hx. revert c.
  induction Hpre as [|y pre [n Hy] _ IH]; intros c; cbn [for_each app].
  - rewrite (append_each_Raise c x e Hx). reflexivity.
  - rewrite (append_each_Ok c y n Hy). simpl. apply IH.
Qed.

Lemma append_loop_inv c l c' :
  for_each (append_each f) c l = Ok c' ->
  exists ns, Forall2 (fun x n => f x = Ok n) l ns /\
             c' = NoteCollection.set_notes c (NoteCollection.notes c ++ ns).
Proof.
  revert c. induction l as [|x l IH]; intros c; cbn [for_each].
  - intros [= <-]. exists []. split; [constructor|].
    rewrite app_nil_r. destruct c; reflexivity.
  - intros H. inv_bind H. unfold append_each in Ha. inv_bind Ha.
    injection Ha as <-.
    destruct (IH _ H) as (ns & Hns & ->). exists (a0 :: ns). split.
    + constructor; assumption.
    + simpl. rewrite <- app_assoc. reflexivity.
Qed.

(** An item that does not convert makes the loop raise one of the
    exceptions of the items. *)
Lemma append_loop_fails (P : exn -> Prop) c l :
  (forall x e, f x = Raise e -> P e) ->
  Exists (fun x => ~ is_Ok (f x)) l ->
  exists e, for_each (append_each f) c l = Raise e /\ P e.
Proof.
  intros HP H. revert c. induction l as [|x l IH]; intros c.
  - inversion H.
  - cbn [for_each]. destruct (f x) as [n|e] eqn:Hx.
    + rewrite (append_each_Ok c x n Hx). simpl.
      apply IH. inversion H as [? ? Hbad|]; subst; [|assumption].
      exfalso. apply Hbad. exists n. assumption.
    + rewrite (append_each_Raise c x e Hx). exists e. split; [reflexivity | eauto].
Qed.
End AppendLoop.

(** ** The constructor of [Note] on keyword arguments *)

Lemma keys_only_fields (r : dict) :
  forallb (fun k => bool_decide (k ∈ Note.fields)) (map_to_list r).*1 = true <->
  only_fields r.
Proof.
  rewrite forallb_forall. unfold only_fields. split.
  - intros H k [v Hv]. apply (bool_decide_eq_true_1 _), H, list_elem_of_In.
    apply list_elem_of_fmap. exists (k, v). split; [reflexivity|].
    apply elem_of_map_to_list. assumption.
  - intros H k Hk. apply bool_decide_eq_true_2, H.
    apply list_elem_of_In, list_elem_of_fmap in Hk as ([k' v] & -> & Hkv).
    apply elem_of_map_to_list in Hkv. simpl. eauto.
Qed.

Lemma filter_none {A} (P : A -> Prop) `{forall x, Decision (P x)} (l : list A) :
  (forall x, x ∈ l -> ~ P x) -> filter P l = [].
Proof.
  induction l as [|a l IH]; intros Hl; [reflexivity|].
  rewrite filter_cons_False by (apply Hl; left).
  apply IH. intros x Hx. apply Hl. right. assumption.
Qed.

Lemma missing_nil (r : dict) : Note.missing r = [] <-> complete r.
Proof.
  unfold Note.missing, complete. split.
  - intros H k Hk. destruct (r !! k) eqn:E; [eauto|]. exfalso.
    assert (k ∈ filter (fun k => r !! k = None) Note.required) as Hin
      by (apply list_elem_of_filter; auto).
    rewrite H in Hin. inversion Hin.
  - intros H. apply filter_none. intros k Hk E.
    destruct (H k Hk) as [v Hv]. congruence.
Qed.

Lemma init_kwargs_loadable (r : dict) :
  complete r -> only_fields r -> Note.init_kwargs r = Ok (note_of_record r).
Proof.
  intros Hc Ho. unfold Note.init_kwargs.
  rewrite (proj2 (keys_only_fields r) Ho), (proj2 (missing_nil r) Hc).
  reflexivity.
Qed.

Lemma init_kwargs_refused (r : dict) :
  ~ only_fields r -> Note.init_kwargs r = Raise (TypeError (Note.keyword_error r)).
Proof.
  intros Ho. unfold Note.init_kwargs.
  destruct (forallb _ _) eqn:E; [|reflexivity].
  exfalso. apply Ho, keys_only_fields, E.
Qed.

Lemma init_kwargs_unexpected (r : dict) :
  ~ only_fields r -> r !! "self" = None ->
  Note.init_kwargs r = Raise (TypeError UnexpectedKeyword).
Proof.
  intros Ho Hs. rewrite (init_kwargs_refused r Ho).
  unfold Note.keyword_error. rewrite Hs. reflexivity.
Qed.

Lemma init_kwargs_missing (r : dict) :
  only_fields r -> ~ complete r ->
  Note.missing r <> [] /\
  Note.init_kwargs r = Raise (TypeError (MissingArguments (Note.missing r))).
Proof.
  intros Ho Hc. assert (Note.missing r <> []) as Hm
    by (intros E; apply Hc, missing_nil, E).
  split; [assumption|]. unfold Note.init_kwargs.
  rewrite (proj2 (keys_only_fields r) Ho).
  destruct (Note.missing r); [congruence | reflexivity].
Qed.

(** Whatever goes wrong in the constructor is a [TypeError]. *)
Lemma splat_Raise (v : pyval) (e : exn) :
  Note.splat v = Raise e -> exists msg, e = TypeError msg.
Proof.
  destruct v; simpl; try (intros [= <-]; eauto).
  unfold Note.init_kwargs. destruct (forallb _ _); [|intros [= <-]; eauto].
  destruct (Note.missing d); [discriminate | intros [= <-]; eauto].
Qed.

Lemma splat_loadable (v : pyval) :
  loadable_record v -> Note.splat v = Ok (note_of_record (record_of v)).
Proof. intros (r & -> & Hc & Ho). apply init_kwargs_loadable; assumption. Qed.

(** ** Serialized notes *)

Lemma to_dict_lookup (n : Note.t) (k : string) :
  Note.to_dict n !! k =
    if String.eqb k "channel_name"
    then (if truthy (Note.channel_name n) then Some (Note.channel_name n) else None)
    else Note.asdict n !! k.
Proof.
  unfold Note.to_dict.
  replace (Note.asdict n !!! "channel_name") with (Note.channel_name n) by reflexivity.
  destruct (String.eqb_spec k "channel_name") as [->|Hk].
  - destruct (truthy _); simpl; [reflexivity | apply lookup_delete_eq].
  - destruct (truthy _); simpl; [reflexivity | apply lookup_delete_ne; congruence].
Qed.

Lemma asdict_lookup_Some (n : Note.t) (k : string) :
  is_Some (Note.asdict n !! k) -> k ∈ Note.fields.
Proof.
  unfold Note.asdict, Note.fields, Note.required. intros [v Hv].
  repeat (apply lookup_insert_Some in Hv as [[<- _]|[_ Hv]];
          [set_solver|]).
  rewrite lookup_empty in Hv. discriminate.
Qed.

Lemma to_dict_only_fields (n : Note.t) : only_fields (Note.to_dict n).
Proof.
  intros k. rewrite to_dict_lookup.
  destruct (String.eqb_spec k "channel_name") as [->|_].
  - intros _. unfold Note.fields, Note.required. set_solver.
  - apply asdict_lookup_Some.
Qed.

Lemma to_dict_complete (n : Note.t) : complete (Note.to_dict n).
Proof.
  intros k Hk. rewrite to_dict_lookup. unfold Note.required in Hk.
  repeat (apply elem_of_cons in Hk as [->|Hk]; [simpl; eexists; reflexivity|]).
  inversion Hk.
Qed.

Lemma splat_to_dict (n : Note.t) :
  Note.splat (PDict (Note.to_dict n)) = Ok (reloaded n).
Proof.
  simpl. rewrite init_kwargs_loadable
    by (apply to_dict_complete || apply to_dict_only_fields).
  f_equal. unfold note_of_record, reloaded.
  rewrite !lookup_total_alt, !to_dict_lookup. simpl.
  destruct n as [s d p v c cn]; simpl. destruct (truthy cn); reflexivity.
Qed.

(** ** [NoteCollection.load] *)

Lemma load_file (path : string) (fs : files) (data : pyval) :
  fs !! path = Some (JsonFile data) ->
  NoteCollection.load path fs = NoteCollection.load_data data.
Proof. unfold NoteCollection.load, read_json. intros ->. reflexivity. Qed.

Lemma load_data_loop (d : dict) (items : list pyval) :
  d !! "notes" = Some (PList items) ->
  NoteCollection.load_data (PDict d) =
    for_each (append_each Note.splat) (loaded_header d) items.
Proof. unfold NoteCollection.load_data. simpl. intros ->. reflexivity. Qed.

Lemma Forall2_splat_loadable (items : list pyval) :
  Forall loadable_record items ->
  Forall2 (fun x n => Note.splat x = Ok n) items
          ((fun v => note_of_record (record_of v)) <$> items).
Proof.
  induction 1 as [|v items Hv _ IH]; simpl; constructor; [|assumption].
  apply splat_loadable, Hv.
Qed.

Lemma loadable_is_Ok (pre : list pyval) :
  Forall loadable_record pre -> Forall (fun y => is_Ok (Note.splat y)) pre.
Proof.
  intros H. eapply Forall_impl; [exact H|].
  intros v Hv. eexists. apply splat_loadable, Hv.
Qed.

Lemma incomplete_not_Ok (r : dict) :
  ~ complete r -> ~ is_Ok (Note.splat (PDict r)).
Proof.
  intros Hc [n Hn]. simpl in Hn. unfold Note.init_kwargs in Hn.
  destruct (forallb _ _); [|discriminate].
  destruct (Note.missing r) eqn:E; [|discriminate].
  apply Hc, missing_nil, E.
Qed.

Lemma foreign_key_not_only_fields (r : dict) (k : string) :
  is_Some (r !! k) -> k ∉ Note.fields -> ~ only_fields r.
Proof. intros Hk Hn Ho. apply Hn, Ho, Hk. Qed.

(** ** [FLStudioConverter.from_json] *)

Lemma on_note_append_each (c : NoteCollection.t) (note_data : pyval) :
  FLStudioConverter.on_note c note_data = append_each fl_note c note_data.
Proof.
  unfold FLStudioConverter.on_note, append_each, fl_note.
  repeat match goal with
         | |- context [py_getitem ?v ?k] => destruct (py_getitem v k); simpl; try reflexivity
         | |- context [py_get ?v ?k ?x] => destruct (py_get v k x); simpl; try reflexivity
         end.
Qed.

Lemma for_each_ext {A S} (f g : S -> A -> result S) (s : S) (l : list A) :
  (forall s x, f s x = g s x) -> for_each f s l = for_each g s l.
Proof.
  intros H. revert s. induction l as [|x l IH]; intros s; simpl; [reflexivity|].
  rewrite H. destruct (g s x); simpl; auto.
Qed.

Lemma getitem_complete (r : dict) (k : string) :
  complete r -> k ∈ Note.required -> py_getitem (PDict r) k = Ok (r !!! k).
Proof.
  intros Hc Hk. destruct (Hc k Hk) as [v Hv]. simpl.
  rewrite lookup_total_alt, Hv. reflexivity.
Qed.

Lemma fl_note_complete (v : pyval) :
  complete_record v -> fl_note v = Ok (note_of_record (record_of v)).
Proof.
  intros (r & -> & Hc). unfold fl_note.
  rewrite !(getitem_complete r) by (assumption || (unfold Note.required; set_solver)).
  reflexivity.
Qed.

Lemma Forall2_fl_note (items : list pyval) :
  Forall complete_record items ->
  Forall2 (fun x n => fl_note x = Ok n) items
          ((fun v => note_of_record (record_of v)) <$> items).
Proof.
  induction 1 as [|v items Hv _ IH]; simpl; constructor; [|assumption].
  apply fl_note_complete, Hv.
Qed.

Lemma from_json_file (path : string) (fs : files) (data : pyval) :
  fs !! path = Some (JsonFile data) ->
  FLStudioConverter.from_json path fs = FLStudioConverter.from_json_data path data.
Proof. unfold FLStudioConverter.from_json, read_json. intros ->. reflexivity. Qed.

Lemma from_json_data_loop (path : string) (d : dict) (items : list pyval) :
  py_iter (default (PList []) (d !! "notes")) = Ok items ->
  FLStudioConverter.from_json_data path (PDict d) =
    for_each (append_each fl_note) (fl_header path d) items.
Proof.
  unfold FLStudioConverter.from_json_data. simpl. intros ->. simpl.
  apply for_each_ext, on_note_append_each.
Qed.

Ltac solve_complete :=
  let k := fresh "k" in
  let Hk := fresh "Hk" in
  intros k Hk; unfold Note.required in Hk;
  repeat (apply elem_of_cons in Hk as [->|Hk]; [eexists; reflexivity|]);
  inversion Hk.

(** ** The JSON importer keeps the notes of the input *)

(** C3: for every valid FL Studio input (a mapping whose [notes] array holds
    mappings with [start], [duration], [pitch] and [velocity]) the importer
    returns a collection with as many notes as the array has entries, the
    note at each position built from the entry at that position: the order
    of the input, nothing sorted. *)
Theorem from_json_preserves_notes (path : string) (fs : files) (d : dict)
    (items : list pyval) :
  fs !! path = Some (JsonFile (PDict d)) ->
  d !! "notes" = Some (PList items) ->
  Forall complete_record items ->
  exists c,
    FLStudioConverter.from_json path fs = Ok c /\
    length (NoteCollection.notes c) = length items /\
    (forall i v, items !! i = Some v ->
       NoteCollection.notes c !! i = Some (note_of_record (record_of v))) /\
    NoteCollection.notes c = (fun v => note_of_record (record_of v)) <$> items.
Proof.
  intros Hfs Hd Hitems.
  rewrite (from_json_file _ _ _ Hfs).
  rewrite (from_json_data_loop path d items) by (rewrite Hd; reflexivity).
  rewrite (append_loop_Ok fl_note _ _ _ (Forall2_fl_note items Hitems)).
  eexists. split; [reflexivity|]. simpl.
  split; [apply length_fmap|]. split; [|reflexivity].
  intros i v Hi. rewrite list_lookup_fmap, Hi. reflexivity.
Qed.

Lemma from_json_preserves_notes_witness :
  exists c,
    FLStudioConverter.from_json "fl.json" (<["fl.json" := JsonFile (PDict Sample.fl_song)]> ∅)
      = Ok c /\
    NoteCollection.notes c = [note_of_record Sample.fl_entry].
Proof.
  destruct (from_json_preserves_notes "fl.json"
              (<["fl.json" := JsonFile (PDict Sample.fl_song)]> ∅)
              Sample.fl_song [PDict Sample.fl_entry])
    as (c & Hc & _ & _ & Hn).
  - reflexivity.
  - reflexivity.
  - repeat constructor. exists Sample.fl_entry. split; [reflexivity | solve_complete].
  - exists c. split; [exact Hc | exact Hn].
Defined.

(** C9: when the top-level mapping of the input has no [notes] key the
    importer raises nothing and returns a collection without notes. *)
Theorem from_json_without_notes (path : string) (fs : files) (d : dict) :
  fs !! path = Some (JsonFile (PDict d)) ->
  d !! "notes" = None ->
  FLStudioConverter.from_json path fs = Ok (fl_header path d) /\
  NoteCollection.notes (fl_header path d) = [].
Proof.
  intros Hfs Hd. split; [|reflexivity].
  rewrite (from_json_file _ _ _ Hfs).
  rewrite (from_json_data_loop path d []) by (rewrite Hd; reflexivity).
  reflexivity.
Qed.

Lemma from_json_without_notes_witness :
  FLStudioConverter.from_json "fl.json"
    (<["fl.json" := JsonFile (PDict Sample.fl_no_notes)]> ∅)
  = Ok (fl_header "fl.json" Sample.fl_no_notes).
Proof.
  apply (from_json_without_notes "fl.json"
           (<["fl.json" := JsonFile (PDict Sample.fl_no_notes)]> ∅)
           Sample.fl_no_notes); reflexivity.
Defined.

(** ** Saving and loading *)

Lemma Forall2_splat_to_dict (l : list Note.t) :
  Forall2 (fun x n => Note.splat x = Ok n)
          ((fun n => PDict (Note.to_dict n)) <$> l) (reloaded <$> l).
Proof.
  induction l as [|n l IH]; simpl; constructor; [apply splat_to_dict | assumption].
Qed.

Lemma named_reloaded (n : Note.t) : named n -> reloaded n = n.
Proof.
  intros (s & Hs & Hne). unfold reloaded. rewrite Hs. simpl.
  destruct (String.eqb_spec s ""); [contradiction | reflexivity].
Qed.

Lemma unnamed_reloaded (n : Note.t) :
  Note.channel_name n = PStr "" -> reloaded n = n.
Proof.
  intros Hs. unfold reloaded. rewrite Hs. simpl.
  destruct n; simpl in *. subst. reflexivity.
Qed.

Lemma named_all_reloaded (l : list Note.t) :
  Forall named l -> reloaded <$> l = l.
Proof.
  induction 1 as [|n l Hn _ IH]; simpl; [reflexivity|].
  rewrite (named_reloaded n Hn). f_equal. exact IH.
Qed.

Lemma load_save (c : NoteCollection.t) (path : string) (fs : files) :
  NoteCollection.load path (NoteCollection.save c path fs) =
    Ok (with_notes (loaded_header (NoteCollection.to_dict c))
                   (reloaded <$> NoteCollection.notes c)).
Proof.
  rewrite (load_file path _ (PDict (NoteCollection.to_dict c)))
    by apply lookup_insert_eq.
  rewrite (load_data_loop _ ((fun n => PDict (Note.to_dict n)) <$> NoteCollection.notes c))
    by reflexivity.
  apply append_loop_Ok, Forall2_splat_to_dict.
Qed.

(** C5: saving a collection and loading the file succeeds, with as many
    notes as were saved.  When every note has a channel name that is not
    empty, the notes that come back are the notes saved.  A note whose
    channel name is the empty string is written without the
    [channel_name] key, and the note read back at its position has the
    empty string as channel name again. *)
Theorem save_load_roundtrip (c : NoteCollection.t) (path : string) (fs : files) :
  exists c',
    NoteCollection.load path (NoteCollection.save c path fs) = Ok c' /\
    length (NoteCollection.notes c') = length (NoteCollection.notes c) /\
    (Forall named (NoteCollection.notes c) ->
       NoteCollection.notes c' = NoteCollection.notes c) /\
    (forall i n, NoteCollection.notes c !! i = Some n ->
       Note.channel_name n = PStr "" ->
       Note.to_dict n !! "channel_name" = None /\
       (forall k, k ∈ Note.required ++ ["channel"] ->
          Note.to_dict n !! k = Note.asdict n !! k) /\
       exists n', NoteCollection.notes c' !! i = Some n' /\
                  Note.channel_name n' = PStr "" /\ n' = n).
Proof.
  eexists. split; [apply load_save|]. simpl.
  split; [apply length_fmap|]. split.
  - apply named_all_reloaded.
  - intros i n Hi Hn. split; [|split].
    + rewrite to_dict_lookup, Hn. reflexivity.
    + intros k Hk. rewrite to_dict_lookup. unfold Note.required in Hk. simpl in Hk.
      repeat (apply elem_of_cons in Hk as [->|Hk]; [reflexivity|]). inversion Hk.
    + exists (reloaded n). rewrite list_lookup_fmap, Hi. simpl.
      rewrite (unnamed_reloaded n Hn). auto.
Qed.

Lemma save_load_roundtrip_witness :
  (exists c', NoteCollection.load "out.json"
                (NoteCollection.save Sample.named_song "out.json" ∅) = Ok c' /\
              NoteCollection.notes c' = [Sample.lead]) /\
  (exists c', NoteCollection.load "out.json"
                (NoteCollection.save Sample.mixed_song "out.json" ∅) = Ok c' /\
              Note.to_dict Sample.anonymous !! "channel_name" = None /\
              NoteCollection.notes c' !! 1%nat = Some Sample.anonymous).
Proof.
  split.
  - destruct (save_load_roundtrip Sample.named_song "out.json" ∅)
      as (c' & Hc & _ & Hnamed & _).
    exists c'. split; [exact Hc|]. apply Hnamed.
    repeat constructor. exists "lead". split; [reflexivity | discriminate].
  - destruct (save_load_roundtrip Sample.mixed_song "out.json" ∅)
      as (c' & Hc & _ & _ & Hempty).
    destruct (Hempty 1%nat Sample.anonymous eq_refl eq_refl)
      as (Hkey & _ & n' & Hn' & _ & ->).
    exists c'. split; [exact Hc|]. split; [exact Hkey | exact Hn'].
Defined.

(** ** What [load] accepts *)

(** C10 as stated fails on the stored collection [Sample2.mixed_stored]: its
    second record has every field and the key [foo], and [load] raises the
    missing-argument error of the first record, which lacks [pitch] and
    [velocity]; the error for the key [foo] is never reached. *)
Lemma load_foreign_key_other_error :
  PDict Sample.extra_record ∈ [PDict Sample.short_record; PDict Sample.extra_record] /\
  is_Some (Sample.extra_record !! "foo") /\ ("foo" ∉ Note.fields) /\
  NoteCollection.load "stored.json"
    (<["stored.json" := JsonFile (PDict Sample2.mixed_stored)]> ∅)
  = Raise (TypeError (MissingArguments ["pitch"; "velocity"])).
Proof.
  split; [right; left|]. split; [eexists; reflexivity|]. split.
  - unfold Note.fields, Note.required. simpl. intros H.
    repeat (apply elem_of_cons in H as [H|H]; [discriminate H|]). inversion H.
  - vm_compute. reflexivity.
Qed.

(** C10, amended: a stored record with a key that is no field of [Note] is
    refused by the constructor with a [TypeError], the unexpected-keyword
    error when the record has no key [self]; loading a file whose notes hold
    such a record raises a [TypeError] instead of dropping the key, and this
    is the unexpected-keyword error when the records before it load and the
    record has no key [self]. *)
Theorem load_rejects_foreign_key (path : string) (fs : files) (d : dict)
    (items : list pyval) (r : dict) (k : string) :
  fs !! path = Some (JsonFile (PDict d)) ->
  d !! "notes" = Some (PList items) ->
  PDict r ∈ items ->
  is_Some (r !! k) -> k ∉ Note.fields ->
  (exists msg, Note.splat (PDict r) = Raise (TypeError msg)) /\
  (r !! "self" = None ->
   Note.splat (PDict r) = Raise (TypeError UnexpectedKeyword)) /\
  (exists msg, NoteCollection.load path fs = Raise (TypeError msg)) /\
  (forall pre post, items = pre ++ PDict r :: post ->
     Forall loadable_record pre -> r !! "self" = None ->
     NoteCollection.load path fs = Raise (TypeError UnexpectedKeyword)).
Proof.
  intros Hfs Hd Hin Hk Hnk.
  pose proof (foreign_key_not_only_fields r k Hk Hnk) as Ho.
  pose proof (init_kwargs_refused r Ho) as Hr.
  rewrite (load_file _ _ _ Hfs), (load_data_loop d items Hd).
  split; [eexists; exact Hr|].
  split; [apply init_kwargs_unexpected, Ho|]. split.
  - destruct (append_loop_fails Note.splat (fun e => exists msg, e = TypeError msg)
                (loaded_header d) items) as (e & -> & msg & ->).
    + apply splat_Raise.
    + apply Exists_exists. exists (PDict r). split; [assumption|].
      intros [n Hn]. simpl in Hn. rewrite Hr in Hn. discriminate.
    + eauto.
  - intros pre post -> Hpre Hs.
    apply append_loop_Raise; [apply loadable_is_Ok, Hpre|].
    apply init_kwargs_unexpected; assumption.
Qed.

Lemma load_rejects_foreign_key_witness :
  NoteCollection.load "stored.json"
    (<["stored.json" := JsonFile (PDict Sample.extra_stored)]> ∅)
  = Raise (TypeError UnexpectedKeyword).
Proof.
  destruct (load_rejects_foreign_key "stored.json"
              (<["stored.json" := JsonFile (PDict Sample.extra_stored)]> ∅)
              Sample.extra_stored [PDict Sample.extra_record]
              Sample.extra_record "foo") as (_ & _ & _ & H).
  - reflexivity.
  - reflexivity.
  - left.
  - eexists. reflexivity.
  - unfold Note.fields, Note.required. simpl. intros H.
    repeat (apply elem_of_cons in H as [H|H]; [discriminate H|]). inversion H.
  - apply (H [] []); [reflexivity | constructor | reflexivity].
Defined.

(** C6 as stated fails on the stored collection [Sample.extra_stored]: its
    only record has the four required fields, and [load] raises on the key
    [foo] of that record. *)
Lemma load_complete_record_fails :
  Forall complete_record [PDict Sample.extra_record] /\
  NoteCollection.load "stored.json"
    (<["stored.json" := JsonFile (PDict Sample.extra_stored)]> ∅)
  = Raise (TypeError UnexpectedKeyword).
Proof.
  split.
  - repeat constructor. exists Sample.extra_record. split; [reflexivity | solve_complete].
  - vm_compute. reflexivity.
Qed.

(** C6, amended: for a stored mapping [d] whose [notes] entry is a list,
    - [load] raises a [TypeError] whenever a record of the list lacks one of
      [start], [duration], [pitch], [velocity]; it is the missing-argument
      error, naming the fields that the record lacks, when the records before
      it load and the record has no key besides the fields of [Note];
    - [load] succeeds when every record is a mapping with the four fields and
      no key besides the six fields of [Note]: [version] and [source] are the
      stored ones, "1.0" and "manual" when absent, and the notes are the
      stored fields of the records, in order. *)
Theorem load_records (path : string) (fs : files) (d : dict) (items : list pyval) :
  fs !! path = Some (JsonFile (PDict d)) ->
  d !! "notes" = Some (PList items) ->
  (forall r, PDict r ∈ items -> ~ complete r ->
     exists msg, NoteCollection.load path fs = Raise (TypeError msg)) /\
  (forall pre r post, items = pre ++ PDict r :: post ->
     Forall loadable_record pre -> only_fields r -> ~ complete r ->
     Note.missing r <> [] /\
     NoteCollection.load path fs =
       Raise (TypeError (MissingArguments (Note.missing r)))) /\
  (Forall loadable_record items ->
     exists c,
       NoteCollection.load path fs = Ok c /\
       NoteCollection.version c = default (PStr "1.0") (d !! "version") /\
       NoteCollection.source c = default (PStr "manual") (d !! "source") /\
       NoteCollection.notes c = (fun v => note_of_record (record_of v)) <$> items).
Proof.
  intros Hfs Hd.
  rewrite (load_file _ _ _ Hfs), (load_data_loop d items Hd).
  split; [|split].
  - intros r Hin Hc.
    destruct (append_loop_fails Note.splat (fun e => exists msg, e = TypeError msg)
                (loaded_header d) items) as (e & -> & msg & ->).
    + apply splat_Raise.
    + apply Exists_exists. exists (PDict r). split; [assumption|].
      apply incomplete_not_Ok, Hc.
    + eauto.
  - intros pre r post -> Hpre Ho Hc.
    destruct (init_kwargs_missing r Ho Hc) as [Hm Hr].
    split; [exact Hm|].
    apply append_loop_Raise; [apply loadable_is_Ok, Hpre | exact Hr].
  - intros Hall.
    rewrite (append_loop_Ok Note.splat _ _ _ (Forall2_splat_loadable items Hall)).
    eexists. split; [reflexivity|]. simpl. auto.
Qed.

Lemma load_records_witness :
  (exists msg,
     NoteCollection.load "short.json"
       (<["short.json" := JsonFile (PDict Sample.short_stored)]> ∅)
     = Raise (TypeError msg)) /\
  NoteCollection.load "short.json"
    (<["short.json" := JsonFile (PDict Sample.short_stored)]> ∅)
  = Raise (TypeError (MissingArguments ["pitch"; "velocity"])) /\
  (exists c,
     NoteCollection.load "bare.json"
       (<["bare.json" := JsonFile (PDict Sample.bare_stored)]> ∅) = Ok c /\
     NoteCollection.version c = PStr "1.0" /\
     NoteCollection.source c = PStr "manual" /\
     NoteCollection.notes c = [note_of_record Sample.fl_entry]).
Proof.
  assert (~ complete Sample.short_record) as Hshort.
  { intros Hc. destruct (Hc "pitch") as [v Hv].
    - unfold Note.required. repeat constructor.
    - vm_compute in Hv. discriminate. }
  split; [|split].
  - destruct (load_records "short.json"
                (<["short.json" := JsonFile (PDict Sample.short_stored)]> ∅)
                Sample.short_stored [PDict Sample.short_record])
      as (H & _ & _); [reflexivity | reflexivity |].
    apply (H Sample.short_record); [left | exact Hshort].
  - destruct (load_records "short.json"
                (<["short.json" := JsonFile (PDict Sample.short_stored)]> ∅)
                Sample.short_stored [PDict Sample.short_record])
      as (_ & H & _); [reflexivity | reflexivity |].
    destruct (H [] Sample.short_record [] eq_refl) as [_ Hr].
    + constructor.
    + intros k [v Hv]. unfold Sample.short_record in Hv.
      repeat (apply lookup_insert_Some in Hv as [[<- _]|[_ Hv]];
              [unfold Note.fields, Note.required; simpl; repeat constructor|]).
      rewrite lookup_empty in Hv. discriminate.
    + exact Hshort.
    + exact Hr.
  - destruct (load_records "bare.json"
                (<["bare.json" := JsonFile (PDict Sample.bare_stored)]> ∅)
                Sample.bare_stored [PDict Sample.fl_entry])
      as (_ & _ & H); [reflexivity | reflexivity |].
    destruct H as (c & Hc & Hv & Hs & Hn).
    + repeat constructor. exists Sample.fl_entry.
      split; [reflexivity|]. split; [solve_complete|].
      intros k [v Hv]. unfold Sample.fl_entry in Hv.
      repeat (apply lookup_insert_Some in Hv as [[<- _]|[_ Hv]];
              [unfold Note.fields, Note.required; simpl; repeat constructor|]).
      rewrite lookup_empty in Hv. discriminate.
    + exists c. auto.
Defined.

(** ** Floats *)

(** The constants are the numbers their names say. *)
Lemma float_constants :
  fmul (Z2F 2) f_half = f_one /\ fmul (Z2F 4) f_quarter = f_one /\
  fadd f_zero f_one = f_one /\
  f_127 = fadd (fmul (Z2F 126) f_one) f_one /\
  Sample.f_08 = fdiv (Z2F 8) (Z2F 10).
Proof. vm_compute. repeat split. Qed.

(** ** Order of floats *)

Lemma lex_lt_irrefl (x : Z * Z * Z) : ~ lex_lt x x.
Proof. destruct x as [[a b] c]. unfold lex_lt. lia. Qed.

Lemma lex_lt_asym (x y : Z * Z * Z) : lex_lt x y -> ~ lex_lt y x.
Proof. destruct x as [[a b] c], y as [[a' b'] c']. unfold lex_lt. lia. Qed.

Lemma lex_lt_trans (x y z : Z * Z * Z) : lex_lt x y -> lex_lt y z -> lex_lt x z.
Proof.
  destruct x as [[a b] c], y as [[a' b'] c'], z as [[a'' b''] c''].
  unfold lex_lt. lia.
Qed.

Lemma lex_lt_total (x y : Z * Z * Z) : lex_lt x y \/ x = y \/ lex_lt y x.
Proof.
  destruct x as [[a b] c], y as [[a' b'] c']. unfold lex_lt.
  destruct (Z.lt_total a a') as [?|[->|?]]; [lia | | lia].
  destruct (Z.lt_total b b') as [?|[->|?]]; [lia | | lia].
  destruct (Z.lt_total c c') as [?|[->|?]]; [lia | auto | lia].
Qed.

Lemma SFcompare_rank (a b : float) :
  is_nan a = false -> is_nan b = false ->
  exists c, SFcompare a b = Some c /\
    match c with
    | Lt => lex_lt (rank a) (rank b)
    | Eq => rank a = rank b
    | Gt => lex_lt (rank b) (rank a)
    end.
Proof.
  intros Ha Hb.
  destruct a as [sa|sa| |sa ma ea], b as [sb|sb| |sb mb eb]; try discriminate;
    try destruct sa; try destruct sb; simpl;
    try (eexists; split; [reflexivity|]; simpl; unfold lex_lt; (reflexivity || lia)).
  - change (Pos.compare_cont Eq ma mb) with (Pos.compare ma mb).
    destruct (Z.compare_spec ea eb) as [->|?|?];
      [destruct (Pos.compare_spec ma mb) as [->|?|?]|..];
      (eexists; split; [reflexivity|]; simpl; unfold lex_lt; (reflexivity || lia)).
  - change (Pos.compare_cont Eq ma mb) with (Pos.compare ma mb).
    destruct (Z.compare_spec ea eb) as [->|?|?];
      [destruct (Pos.compare_spec ma mb) as [->|?|?]|..];
      (eexists; split; [reflexivity|]; simpl; unfold lex_lt; (reflexivity || lia)).
Qed.

Section FloatOrder.
Variables a b c : float.
Hypothesis Ha : is_nan a = false.
Hypothesis Hb : is_nan b = false.
Hypothesis Hc : is_nan c = false.

Lemma SFltb_rank : SFltb a b = true <-> lex_lt (rank a) (rank b).
Proof.
  destruct (SFcompare_rank a b Ha Hb) as (r & Hr & H). unfold SFltb. rewrite Hr.
  destruct r; split; try discriminate; try reflexivity; intros H'.
  - rewrite H in H'. destruct (lex_lt_irrefl _ H').
  - assumption.
  - destruct (lex_lt_asym _ _ H H').
Qed.

Lemma SFeqb_rank : SFeqb a b = true <-> rank a = rank b.
Proof.
  destruct (SFcompare_rank a b Ha Hb) as (r & Hr & H). unfold SFeqb. rewrite Hr.
  destruct r; split; try discriminate; try reflexivity; intros H'.
  - assumption.
  - rewrite H' in H. destruct (lex_lt_irrefl _ H).
  - rewrite H' in H. destruct (lex_lt_irrefl _ H).
Qed.

Lemma SFleb_rank : SFleb a b = true <-> ~ lex_lt (rank b) (rank a).
Proof.
  destruct (SFcompare_rank a b Ha Hb) as (r & Hr & H). unfold SFleb. rewrite Hr.
  destruct r; split; try discriminate; try reflexivity; intros H'.
  - rewrite H. apply lex_lt_irrefl.
  - apply lex_lt_asym, H.
  - contradiction.
Qed.
End FloatOrder.

Lemma SFeqb_not_nan (a b : float) :
  SFeqb a b = true -> is_nan a = false /\ is_nan b = false.
Proof. destruct a, b; try discriminate; auto. Qed.

(** What is not less is greater or equal. *)
Lemma SFltb_false_leb (a b : float) :
  is_nan a = false -> is_nan b = false -> SFltb a b = false -> SFleb b a = true.
Proof.
  intros Ha Hb H. apply SFleb_rank; try assumption.
  intros H'. apply (SFltb_rank a b Ha Hb) in H'. congruence.
Qed.

Lemma SFltb_leb (a b : float) :
  is_nan a = false -> is_nan b = false -> SFltb a b = true -> SFleb a b = true.
Proof.
  intros Ha Hb H. apply SFleb_rank; try assumption.
  apply lex_lt_asym, (SFltb_rank a b Ha Hb), H.
Qed.

Lemma SFltb_leb_trans (a b c : float) :
  is_nan a = false -> is_nan b = false -> is_nan c = false ->
  SFltb a b = true -> SFleb b c = true -> SFltb a c = true.
Proof.
  intros Ha Hb Hc H1 H2.
  apply (SFltb_rank a b Ha Hb) in H1. apply (SFleb_rank b c Hb Hc) in H2.
  apply (SFltb_rank a c Ha Hc).
  destruct (lex_lt_total (rank b) (rank c)) as [H|[H|H]].
  - eapply lex_lt_trans; eassumption.
  - rewrite <- H. assumption.
  - contradiction.
Qed.

Lemma SFleb_trans (a b c : float) :
  is_nan a = false -> is_nan b = false -> is_nan c = false ->
  SFleb a b = true -> SFleb b c = true -> SFleb a c = true.
Proof.
  intros Ha Hb Hc H1 H2.
  apply (SFleb_rank a b Ha Hb) in H1. apply (SFleb_rank b c Hb Hc) in H2.
  apply (SFleb_rank a c Ha Hc). intros H.
  destruct (lex_lt_total (rank a) (rank b)) as [H'|[H'|H']].
  - apply H2. eapply lex_lt_trans; eassumption.
  - rewrite H' in H. contradiction.
  - contradiction.
Qed.

(** Two numbers equal to a third are not below each other. *)
Lemma SFeqb_not_ltb (a b t : float) :
  SFeqb a t = true -> SFeqb b t = true -> SFltb a b = false.
Proof.
  intros H1 H2.
  destruct (SFeqb_not_nan _ _ H1) as [Ha Ht], (SFeqb_not_nan _ _ H2) as [Hb _].
  apply (SFeqb_rank a t Ha Ht) in H1. apply (SFeqb_rank b t Hb Ht) in H2.
  destruct (SFltb a b) eqn:E; [|reflexivity].
  apply (SFltb_rank a b Ha Hb) in E. rewrite H1, H2 in E.
  destruct (lex_lt_irrefl _ E).
Qed.

(** ** The sort *)

Lemma timed_start_of (n : Note.t) :
  timed n -> Note.start n = PFloat (start_of n) /\ is_nan (start_of n) = false.
Proof. intros (f & Hf & Hn). unfold start_of. rewrite Hf. auto. Qed.

Lemma py_lt_timed (x y : Note.t) :
  timed x -> timed y ->
  py_lt (Note.start x) (Note.start y) = Ok (SFltb (start_of x) (start_of y)).
Proof.
  intros Hx Hy.
  destruct (timed_start_of x Hx) as [-> _], (timed_start_of y Hy) as [-> _].
  reflexivity.
Qed.

Lemma insort_Permutation (x : Note.t) (l r : list Note.t) :
  insort x l = Ok r -> r ≡ₚ x :: l.
Proof.
  revert r. induction l as [|y l IH]; intros r; simpl.
  - intros [= <-]. reflexivity.
  - intros H. inv_bind H. destruct a.
    + injection H as <-. reflexivity.
    + inv_bind H. injection H as <-. rewrite (IH _ Ha0). apply Permutation_swap.
Qed.

Lemma sort_loop_Permutation (acc l r : list Note.t) :
  for_each (fun sorted x => insort x sorted) acc l = Ok r -> r ≡ₚ acc ++ l.
Proof.
  revert acc. induction l as [|x l IH]; intros acc; simpl.
  - intros [= <-]. rewrite app_nil_r. reflexivity.
  - intros H. inv_bind H. rewrite (IH _ H), (insort_Permutation _ _ _ Ha).
    apply Permutation_middle.
Qed.

Lemma sort_by_start_Permutation (l r : list Note.t) :
  sort_by_start l = Ok r -> r ≡ₚ l.
Proof. apply (sort_loop_Permutation []). Qed.

(** Where the insertion puts a note: behind the notes it is not less than,
    in front of the first note it is less than. *)
Lemma insort_split (x : Note.t) (l : list Note.t) :
  timed x -> Forall timed l ->
  exists l1 l2, l = l1 ++ l2 /\ insort x l = Ok (l1 ++ x :: l2) /\
    Forall (fun y => SFltb (start_of x) (start_of y) = false) l1 /\
    (forall z l2', l2 = z :: l2' -> SFltb (start_of x) (start_of z) = true).
Proof.
  intros Hx. induction 1 as [|y l Hy Hl IH].
  - exists [], []. repeat split; [constructor | discriminate].
  - simpl. rewrite (py_lt_timed x y Hx Hy).
    destruct (SFltb (start_of x) (start_of y)) eqn:E; simpl.
    + exists [], (y :: l). repeat split; [constructor|].
      intros z l2' [= <- <-]. exact E.
    + destruct IH as (l1 & l2 & -> & -> & H1 & H2).
      exists (y :: l1), l2. repeat split; [constructor; assumption | exact H2].
Qed.

Lemma insort_keeps (x : Note.t) (l r : list Note.t) :
  timed x -> Forall timed l -> StronglySorted le_start l ->
  insort x l = Ok r ->
  StronglySorted le_start r /\ Forall timed r /\
  forall t, starting_at t r = starting_at t l ++ starting_at t [x].
Proof.
  intros Hx Hl Hs Hr.
  destruct (insort_split x l Hx Hl) as (l1 & l2 & -> & Hr' & H1 & H2).
  rewrite Hr' in Hr. injection Hr as <-.
  destruct (timed_start_of x Hx) as [_ Nx].
  apply Forall_app in Hl as [Hl1 Hl2].
  apply StronglySorted_app in Hs as (H12 & Hs1 & Hs2).
  assert (Forall (fun z => SFltb (start_of x) (start_of z) = true) l2) as Hlt.
  { destruct l2 as [|z0 l2]; [constructor|].
    specialize (H2 z0 l2 eq_refl).
    apply StronglySorted_cons in Hs2 as [Hz0 _].
    apply Forall_cons in Hl2 as [Tz0 Tl2].
    destruct (timed_start_of z0 Tz0) as [_ Nz0].
    constructor; [exact H2|].
    rewrite Forall_forall in *. intros z Hz.
    destruct (timed_start_of z (Tl2 z Hz)) as [_ Nz].
    apply (SFltb_leb_trans _ (start_of z0)); auto. apply Hz0, Hz. }
  split; [|split].
  - apply StronglySorted_app. split; [|split; [assumption|]].
    + intros y z Hy Hz. apply elem_of_cons in Hz as [->|Hz]; [|auto].
      rewrite Forall_forall in H1, Hl1.
      destruct (timed_start_of y (Hl1 y Hy)) as [_ Ny].
      apply SFltb_false_leb; auto.
    + apply StronglySorted_cons. split; [|assumption].
      rewrite Forall_forall in *. intros z Hz.
      destruct (timed_start_of z (Hl2 z Hz)) as [_ Nz].
      apply SFltb_leb; auto.
  - apply Forall_app. split; [assumption|]. constructor; assumption.
  - intros t. unfold starting_at. rewrite !filter_app, filter_cons.
    destruct (decide (SFeqb (start_of x) t = true)) as [Ex|Ex].
    + rewrite (filter_cons_True _ x []) by exact Ex.
      rewrite (filter_none _ l2); [rewrite app_nil_r; reflexivity|].
      intros z Hz Ez. rewrite Forall_forall in Hlt. specialize (Hlt z Hz).
      rewrite (SFeqb_not_ltb _ _ _ Ex Ez) in Hlt. discriminate.
    + rewrite (filter_cons_False _ x []) by exact Ex.
      rewrite filter_nil, app_nil_r. reflexivity.
Qed.

Lemma sort_loop_keeps (acc l r : list Note.t) :
  Forall timed acc -> Forall timed l -> StronglySorted le_start acc ->
  for_each (fun sorted x => insort x sorted) acc l = Ok r ->
  StronglySorted le_start r /\ Forall timed r /\
  forall t, starting_at t r = starting_at t acc ++ starting_at t l.
Proof.
  intros Hacc Hl. revert acc Hacc r.
  induction Hl as [|x l Hx Hl IH]; intros acc Hacc r Hs; simpl.
  - intros [= <-]. repeat split; try assumption.
    intros t. unfold starting_at. rewrite filter_nil, app_nil_r. reflexivity.
  - intros H. inv_bind H.
    destruct (insort_keeps x acc a Hx Hacc Hs Ha) as (Hs' & Ht' & Hf').
    destruct (IH a Ht' r Hs' H) as (Hs'' & Ht'' & Hf'').
    repeat split; try assumption.
    intros t. rewrite Hf'', Hf'. unfold starting_at.
    rewrite <- app_assoc, <- filter_app. reflexivity.
Qed.

Lemma sort_loop_total (acc l : list Note.t) :
  Forall timed acc -> Forall timed l ->
  is_Ok (for_each (fun sorted x => insort x sorted) acc l).
Proof.
  intros Hacc Hl. revert acc Hacc.
  induction Hl as [|x l Hx Hl IH]; intros acc Hacc; simpl.
  - eexists. reflexivity.
  - destruct (insort_split x acc Hx Hacc) as (l1 & l2 & -> & -> & _ & _). simpl.
    apply IH. apply Forall_app in Hacc as [H1 H2].
    apply Forall_app. split; [assumption | constructor; assumption].
Qed.

Lemma StronglySorted_ordered (l : list Note.t) :
  StronglySorted le_start l -> ordered l.
Proof.
  induction 1 as [|x l Hs IH Hx]; intros i j a b Hij Hi Hj.
  - rewrite lookup_nil in Hi. discriminate.
  - destruct j as [|j]; [lia|]. simpl in Hj. destruct i as [|i].
    + injection Hi as <-. rewrite Forall_forall in Hx.
      apply Hx. eapply list_elem_of_lookup_2. eassumption.
    + simpl in Hi. apply (IH i j); [lia | assumption | assumption].
Qed.

(** ** The MIDI importer against its description *)

Lemma float_of_int_Ok (z : Z) (f : float) : float_of_int z = Ok f -> f = Z2F z.
Proof. unfold float_of_int. destruct (Z2F z); congruence. Qed.

Lemma float_truediv_Ok (x y r : float) :
  float_truediv x y = Ok r -> r = fdiv x y.
Proof. unfold float_truediv. destruct (is_zero y); congruence. Qed.

Lemma int_truediv_Ok (a b : Z) (r : float) :
  int_truediv a b = Ok r -> r = fdiv (Z2F a) (Z2F b).
Proof.
  unfold int_truediv. destruct (b =? 0); [discriminate|].
  intros H. inv_bind H. inv_bind H. injection H as <-.
  rewrite (float_of_int_Ok _ _ Ha), (float_of_int_Ok _ _ Ha0). reflexivity.
Qed.

Lemma with_notes_nil (c : NoteCollection.t) : with_notes c [] = c.
Proof. unfold with_notes. rewrite app_nil_r. destruct c; reflexivity. Qed.

Lemma with_notes_app (c : NoteCollection.t) (l k : list Note.t) :
  with_notes (with_notes c l) k = with_notes c (l ++ k).
Proof. unfold with_notes. simpl. rewrite app_assoc. reflexivity. Qed.

Lemma append_with_notes (c : NoteCollection.t) (n : Note.t) :
  NoteCollection.append c n = with_notes c [n].
Proof. reflexivity. Qed.

(** One message: the clock advances, a tempo message sets the tempo, a
    sounding note-on appends its note. *)
Lemma on_message_Ok (tpb : Z) (st st' : SynToMidConverter.locals) (m : Mido.Message) :
  SynToMidConverter.on_message tpb st m = Ok st' ->
  let ticks := fadd (SynToMidConverter.current_time st) (Z2F (Mido.time m)) in
  SynToMidConverter.current_time st' = ticks /\
  SynToMidConverter.tempo st' =
    match Mido.body m with
    | Mido.set_tempo t => t
    | _ => SynToMidConverter.tempo st
    end /\
  SynToMidConverter.collection st' =
    with_notes (SynToMidConverter.collection st)
      (option_list (note_of_message tpb ticks (SynToMidConverter.tempo st) m)).
Proof.
  unfold SynToMidConverter.on_message, note_of_message. intros H. inv_bind H.
  rewrite (float_of_int_Ok _ _ Ha) in H. clear Ha a.
  destruct (Mido.body m) as [t|p v ch|p v ch|ty]; simpl.
  - injection H as <-. simpl. rewrite with_notes_nil. auto.
  - destruct (0 <? v).
    + inv_bind H. inv_bind H. inv_bind H. inv_bind H. inv_bind H.
      injection H as <-. simpl.
      rewrite (float_truediv_Ok _ _ _ Ha3), (float_of_int_Ok _ _ Ha2),
        (float_truediv_Ok _ _ _ Ha1), (float_of_int_Ok _ _ Ha0),
        (int_truediv_Ok _ _ _ Ha).
      auto.
    + injection H as <-. simpl. rewrite with_notes_nil. auto.
  - injection H as <-. simpl. rewrite with_notes_nil. auto.
  - injection H as <-. simpl. rewrite with_notes_nil. auto.
Qed.

Lemma note_of_message_tempo (tpb : Z) (ticks : float) (pre : list Mido.Message)
    (m : Mido.Message) :
  note_of_message tpb ticks (Spec.tempo (pre ++ [m])) m =
  note_of_message tpb ticks (Spec.tempo pre) m.
Proof.
  unfold note_of_message, Spec.tempo. rewrite foldl_snoc.
  destruct (Mido.body m); reflexivity.
Qed.

Lemma note_at_middle (tpb : Z) (pre post : list Mido.Message) (m : Mido.Message) :
  Spec.note_at tpb (pre ++ m :: post) (length pre) =
  note_of_message tpb (Spec.clock (pre ++ [m])) (Spec.tempo pre) m.
Proof.
  assert ((pre ++ m :: post) !! length pre = Some m) as Hl
    by (apply list_lookup_middle; reflexivity).
  assert (take (S (length pre)) (pre ++ m :: post) = pre ++ [m]) as Ht.
  { rewrite (cons_middle m pre post), app_assoc.
    apply take_app_length'. rewrite length_app. simpl. lia. }
  unfold Spec.note_at. rewrite Hl, Ht. simpl.
  apply note_of_message_tempo.
Qed.

(** The messages [msgs] of a track, after the messages [pre]. *)
Lemma on_messages_Ok (tpb : Z) (msgs pre : list Mido.Message)
    (st st' : SynToMidConverter.locals) :
  SynToMidConverter.current_time st = Spec.clock pre ->
  SynToMidConverter.tempo st = Spec.tempo pre ->
  for_each (SynToMidConverter.on_message tpb) st msgs = Ok st' ->
  SynToMidConverter.collection st' =
    with_notes (SynToMidConverter.collection st)
      (omap (Spec.note_at tpb (pre ++ msgs)) (seq (length pre) (length msgs))).
Proof.
  revert pre st. induction msgs as [|m msgs IH]; intros pre st Hc Ht; simpl.
  - intros [= <-]. rewrite with_notes_nil. reflexivity.
  - intros H. inv_bind H.
    destruct (on_message_Ok _ _ _ _ Ha) as (Hc' & Ht' & Hn').
    assert (Spec.clock (pre ++ [m]) = fadd (Spec.clock pre) (Z2F (Mido.time m)))
      as Hclock by (unfold Spec.clock; rewrite foldl_snoc; reflexivity).
    assert (SynToMidConverter.tempo a = Spec.tempo (pre ++ [m])) as Htempo
      by (rewrite Ht', Ht; unfold Spec.tempo; rewrite foldl_snoc; reflexivity).
    rewrite (IH (pre ++ [m]) a) by (assumption || (rewrite Hc', Hc; auto)).
    rewrite Hn', with_notes_app. f_equal.
    rewrite note_at_middle, Hclock, <- Hc, <- Ht.
    rewrite <- (app_assoc pre [m] msgs), length_app, Nat.add_1_r. simpl.
    destruct (note_of_message _ _ _ m); reflexivity.
Qed.

Lemma on_track_Ok (tpb : Z) (c c' : NoteCollection.t) (track : list Mido.Message) :
  SynToMidConverter.on_track tpb c track = Ok c' ->
  c' = with_notes c (Spec.track_notes tpb track).
Proof.
  unfold SynToMidConverter.on_track. intros H. inv_bind H. injection H as <-.
  refine (on_messages_Ok tpb track [] _ _ _ _ Ha); reflexivity.
Qed.

Lemma on_tracks_Ok (tpb : Z) (tracks : list (list Mido.Message))
    (c c' : NoteCollection.t) :
  for_each (SynToMidConverter.on_track tpb) c tracks = Ok c' ->
  c' = with_notes c (concat (Spec.track_notes tpb <$> tracks)).
Proof.
  revert c. induction tracks as [|track tracks IH]; intros c; simpl.
  - intros [= <-]. rewrite with_notes_nil. reflexivity.
  - intros H. inv_bind H. rewrite (IH _ H), (on_track_Ok _ _ _ _ Ha).
    apply with_notes_app.
Qed.

(** The collection that [from_midi_file] starts from. *)
Lemma from_midi_file_Ok (path : string) (md : pyval) (fs : files)
    (mid : Mido.MidiFile) (installed : bool) (c : NoteCollection.t) :
  fs !! path = Some (SmfFile mid) ->
  SynToMidConverter.from_midi_file installed path md fs = Ok (Some c) ->
  sort_by_start (Spec.emitted mid) = Ok (NoteCollection.notes c) /\
  NoteCollection.version c = PStr "1.0" /\
  NoteCollection.source c = PStr "syntomid" /\
  NoteCollection.metadata c =
    NoteCollection.metadata
      (NoteCollection.init (PStr "1.0") (PStr "syntomid")
         (py_or md (PDict (SynToMidConverter.default_metadata path)))).
Proof.
  intros Hfs. unfold SynToMidConverter.from_midi_file, read_midi. rewrite Hfs.
  destruct installed; simpl; [|discriminate].
  intros H. inv_bind H. inv_bind H. injection H as <-.
  apply on_tracks_Ok in Ha. subst a. simpl in *. auto.
Qed.

(** ** The notes that the importer emits *)

Lemma from_midi_file_inv (installed : bool) (path : string) (md : pyval)
    (fs : files) (c : NoteCollection.t) :
  SynToMidConverter.from_midi_file installed path md fs = Ok (Some c) ->
  exists mid, fs !! path = Some (SmfFile mid).
Proof.
  unfold SynToMidConverter.from_midi_file, read_midi.
  destruct installed; [|discriminate]. cbn [negb].
  destruct (fs !! path) as [[data|mid|]|]; try discriminate. eauto.
Qed.

Lemma note_of_message_Some (tpb : Z) (ticks : float) (tempo : Z)
    (m : Mido.Message) (n : Note.t) :
  note_of_message tpb ticks tempo m = Some n ->
  exists p v ch,
    Mido.body m = Mido.note_on p v ch /\ 0 < v /\
    n = {| Note.start :=
             PFloat (fdiv (fmul ticks (fdiv (Z2F tempo) (Z2F 1000000))) (Z2F tpb));
           Note.duration := PFloat f_quarter;
           Note.pitch := PInt p;
           Note.velocity := PFloat (fdiv (Z2F v) f_127);
           Note.channel := PInt ch;
           Note.channel_name := PStr "" |}.
Proof.
  unfold note_of_message. destruct (Mido.body m) as [t|p v ch|p v ch|ty];
    try discriminate.
  destruct (0 <? v) eqn:E; [|discriminate]. intros [= <-].
  exists p, v, ch. repeat split. apply Z.ltb_lt, E.
Qed.

Lemma note_of_message_sounding (tpb : Z) (ticks : float) (tempo : Z)
    (m : Mido.Message) :
  sounding m = true <-> is_Some (note_of_message tpb ticks tempo m).
Proof.
  unfold sounding, note_of_message.
  destruct (Mido.body m) as [t|p v ch|p v ch|ty];
    try (split; [discriminate | intros [? [=]]]).
  destruct (0 <? v); split; eauto; try discriminate. intros [? [=]].
Qed.

Lemma elem_of_emitted (mid : Mido.MidiFile) (n : Note.t) :
  n ∈ Spec.emitted mid ->
  exists track i m ticks tempo,
    track ∈ Mido.tracks mid /\ track !! i = Some m /\
    note_of_message (Mido.ticks_per_beat mid) ticks tempo m = Some n.
Proof.
  unfold Spec.emitted. intros H.
  apply list_elem_of_In, in_concat in H as (l & Hl & Hn).
  apply list_elem_of_In, list_elem_of_fmap in Hl as (track & -> & Htrack).
  apply list_elem_of_In, list_elem_of_omap in Hn as (i & _ & Hi).
  unfold Spec.note_at in Hi. destruct (track !! i) as [m|] eqn:Hm; [|discriminate].
  simpl in Hi. eauto 10.
Qed.

Lemma track_notes_length (tpb : Z) (msgs pre : list Mido.Message) :
  length (omap (Spec.note_at tpb (pre ++ msgs)) (seq (length pre) (length msgs))) =
  length (filter (fun m => sounding m = true) msgs).
Proof.
  revert pre. induction msgs as [|m msgs IH]; intros pre; [reflexivity|].
  specialize (IH (pre ++ [m])).
  rewrite <- (app_assoc pre [m] msgs), length_app, Nat.add_1_r in IH.
  simpl in IH. cbn [length seq omap list_omap]. rewrite note_at_middle, filter_cons.
  pose proof (note_of_message_sounding tpb (Spec.clock (pre ++ [m])) (Spec.tempo pre) m)
    as Hs.
  destruct (note_of_message _ _ _ m) as [n|].
  - rewrite decide_True by (apply Hs; eauto). simpl. f_equal. exact IH.
  - rewrite decide_False; [exact IH|].
    intros E. apply Hs in E as [? [=]].
Qed.

Lemma emitted_length (mid : Mido.MidiFile) :
  length (Spec.emitted mid) =
  length (filter (fun m => sounding m = true) (concat (Mido.tracks mid))).
Proof.
  unfold Spec.emitted. generalize (Mido.ticks_per_beat mid). intros tpb.
  induction (Mido.tracks mid) as [|track tracks IH]; [reflexivity|].
  rewrite fmap_cons, !concat_cons, filter_app, !length_app, IH. f_equal.
  apply (track_notes_length _ track []).
Qed.

Lemma velocity_range_all : forallb velocity_in_range (seqZ 1 127) = true.
Proof. vm_compute. reflexivity. Qed.

(** A data byte above 0 normalizes into (0.0, 1.0]. *)
Lemma velocity_range (v : Z) :
  0 < v <= 127 ->
  SFltb f_zero (fdiv (Z2F v) f_127) = true /\
  SFleb (fdiv (Z2F v) f_127) f_one = true.
Proof.
  intros Hv. pose proof velocity_range_all as H.
  rewrite forallb_forall in H. specialize (H v).
  apply andb_prop, H, list_elem_of_In, elem_of_seqZ. lia.
Qed.

Lemma in_range_message (mid : Mido.MidiFile) (track : list Mido.Message)
    (m : Mido.Message) :
  Mido.in_range mid -> track ∈ Mido.tracks mid -> m ∈ track ->
  0 <= Mido.time m /\ Mido.attrs_in_range (Mido.body m).
Proof.
  intros [_ H] Ht Hm. rewrite Forall_forall in H. specialize (H track Ht).
  rewrite Forall_forall in H. apply H, Hm.
Qed.

Lemma track_notes_carries (tpb : Z) (msgs pre : list Mido.Message) :
  Forall2 carries (filter (fun m => sounding m = true) msgs)
    (omap (Spec.note_at tpb (pre ++ msgs)) (seq (length pre) (length msgs))).
Proof.
  revert pre. induction msgs as [|m msgs IH]; intros pre; [constructor|].
  specialize (IH (pre ++ [m])).
  rewrite <- (app_assoc pre [m] msgs), length_app, Nat.add_1_r in IH.
  simpl in IH. cbn [length seq omap list_omap]. rewrite note_at_middle, filter_cons.
  pose proof (note_of_message_sounding tpb (Spec.clock (pre ++ [m])) (Spec.tempo pre) m)
    as Hs.
  destruct (note_of_message _ _ _ m) as [n|] eqn:En.
  - rewrite decide_True by (apply Hs; eauto). constructor; [|exact IH].
    apply note_of_message_Some in En as (p & v & ch & Hb & Hv & ->).
    exists p, v, ch. auto.
  - rewrite decide_False; [exact IH|].
    intros E. apply Hs in E as [? [=]].
Qed.

Lemma emitted_carries (mid : Mido.MidiFile) :
  Forall2 carries (filter (fun m => sounding m = true) (concat (Mido.tracks mid)))
    (Spec.emitted mid).
Proof.
  unfold Spec.emitted. generalize (Mido.ticks_per_beat mid). intros tpb.
  induction (Mido.tracks mid) as [|track tracks IH]; [constructor|].
  rewrite fmap_cons, !concat_cons, filter_app. apply Forall2_app; [|exact IH].
  apply (track_notes_carries tpb track []).
Qed.

(** C7: the notes that the MIDI importer returns are, in some order, the
    notes [Spec.emitted] that the note-on messages with a raw velocity above
    0 make, one note per such message and in the order of the file: the
    note of a message carries the pitch and the channel of that message and
    has the float quotient of its raw velocity by 127.0 as velocity.  Every
    returned note has a velocity in (0.0, 1.0]; a note-on with velocity 0
    and a note-off leave no note. *)
Theorem midi_velocity (path : string) (md : pyval) (fs : files)
    (mid : Mido.MidiFile) (installed : bool) (c : NoteCollection.t) :
  fs !! path = Some (SmfFile mid) ->
  Mido.in_range mid ->
  SynToMidConverter.from_midi_file installed path md fs = Ok (Some c) ->
  NoteCollection.notes c ≡ₚ Spec.emitted mid /\
  Forall2 carries (filter (fun m => sounding m = true) (concat (Mido.tracks mid)))
          (Spec.emitted mid) /\
  (forall n, n ∈ NoteCollection.notes c ->
     exists m p v ch,
       m ∈ concat (Mido.tracks mid) /\
       Mido.body m = Mido.note_on p v ch /\ 0 < v /\
       Note.velocity n = PFloat (fdiv (Z2F v) f_127) /\
       SFltb f_zero (fdiv (Z2F v) f_127) = true /\
       SFleb (fdiv (Z2F v) f_127) f_one = true) /\
  Forall normalized (NoteCollection.notes c) /\
  length (NoteCollection.notes c) =
    length (filter (fun m => sounding m = true) (concat (Mido.tracks mid))).
Proof.
  intros Hfs Hr H.
  destruct (from_midi_file_Ok _ _ _ _ _ _ Hfs H) as (Hsort & _).
  apply sort_by_start_Permutation in Hsort.
  assert (forall n, n ∈ NoteCollection.notes c ->
     exists m p v ch,
       m ∈ concat (Mido.tracks mid) /\
       Mido.body m = Mido.note_on p v ch /\ 0 < v /\
       Note.velocity n = PFloat (fdiv (Z2F v) f_127) /\
       SFltb f_zero (fdiv (Z2F v) f_127) = true /\
       SFleb (fdiv (Z2F v) f_127) f_one = true) as Hall.
  { intros n Hn. rewrite Hsort in Hn.
    apply elem_of_emitted in Hn as (track & i & m & ticks & tempo & Ht & Hi & Hm).
    apply note_of_message_Some in Hm as (p & v & ch & Hb & Hv & ->).
    apply list_elem_of_lookup_2 in Hi.
    destruct (in_range_message mid track m Hr Ht Hi) as [_ Ha].
    rewrite Hb in Ha. simpl in Ha.
    destruct (velocity_range v) as [H0 H1]; [lia|].
    exists m, p, v, ch. repeat split; try assumption.
    apply list_elem_of_In, in_concat. exists track.
    split; apply list_elem_of_In; assumption. }
  split; [exact Hsort|]. split; [apply emitted_carries|].
  split; [exact Hall|]. split.
  - apply Forall_forall. intros n Hn.
    destruct (Hall n Hn) as (m & p & v & ch & _ & _ & _ & Hv & H0 & H1).
    eexists. split; [exact Hv|]. split; assumption.
  - rewrite Hsort. apply emitted_length.
Qed.

(** C8: every note of the collection that the MIDI importer returns has the
    duration 0.25, the float with [4 * 0.25 = 1]. *)
Theorem midi_duration (path : string) (md : pyval) (fs : files)
    (mid : Mido.MidiFile) (installed : bool) (c : NoteCollection.t) :
  fs !! path = Some (SmfFile mid) ->
  SynToMidConverter.from_midi_file installed path md fs = Ok (Some c) ->
  Forall (fun n => Note.duration n = PFloat f_quarter) (NoteCollection.notes c) /\
  fmul (Z2F 4) f_quarter = f_one.
Proof.
  intros Hfs H. split; [|vm_compute; reflexivity].
  destruct (from_midi_file_Ok _ _ _ _ _ _ Hfs H) as (Hsort & _).
  apply sort_by_start_Permutation in Hsort.
  apply Forall_forall. intros n Hn. rewrite Hsort in Hn.
  apply elem_of_emitted in Hn as (track & i & m & ticks & tempo & _ & _ & Hm).
  apply note_of_message_Some in Hm as (p & v & ch & _ & _ & ->). reflexivity.
Qed.

Lemma song_imported :
  SynToMidConverter.from_midi_file true "song.mid" PNone Sample.song_files =
    Ok (Some Sample.song_out).
Proof. vm_compute. reflexivity. Qed.

Lemma midi_velocity_witness :
  length Sample.duet_sorted = 3%nat /\
  Sample.duet_sorted ≡ₚ Spec.emitted Sample.duet /\
  Forall2 carries
    (filter (fun m => sounding m = true) (concat (Mido.tracks Sample.duet)))
    (Spec.emitted Sample.duet) /\
  Forall normalized Sample.duet_sorted.
Proof.
  destruct (midi_velocity "duet.mid" PNone Sample.duet_files Sample.duet true
              Sample.duet_out) as (Hp & Hc & _ & Hn & _).
  - reflexivity.
  - split; [simpl; lia|]. repeat constructor; simpl; lia.
  - vm_compute. reflexivity.
  - split; [reflexivity|]. split; [exact Hp|]. split; [exact Hc | exact Hn].
Defined.

Lemma midi_duration_witness :
  Forall (fun n => Note.duration n = PFloat f_quarter) Sample.duet_sorted.
Proof.
  apply (midi_duration "duet.mid" PNone Sample.duet_files Sample.duet true
           Sample.duet_out).
  - reflexivity.
  - vm_compute. reflexivity.
Defined.

(** ** Tracks, clocks and tempos *)

(** C2: the collection that the MIDI importer returns holds the notes of the
    description [Spec.emitted], in some order: every track is read on its
    own, with a clock of ticks that starts at 0 and a tempo that starts at
    500000 and follows the tempo messages of the track, and the start of a
    note is [clock * (tempo / 1000000) / ticks_per_beat], clock and tempo
    taken after the messages of its track up to its own.  For the track with
    a tempo of 500000 at tick 0 and a note-on (60, velocity 100, channel 0)
    at tick 480, with 480 ticks per beat, the only note has start 0.5,
    duration 0.25, pitch 60, velocity 100/127.0 and channel 0. *)
Theorem midi_tracks (path : string) (md : pyval) (fs : files)
    (mid : Mido.MidiFile) (installed : bool) (c : NoteCollection.t) :
  fs !! path = Some (SmfFile mid) ->
  SynToMidConverter.from_midi_file installed path md fs = Ok (Some c) ->
  NoteCollection.notes c ≡ₚ Spec.emitted mid /\
  (forall n, n ∈ NoteCollection.notes c ->
     exists track i m,
       track ∈ Mido.tracks mid /\ track !! i = Some m /\
       Spec.note_at (Mido.ticks_per_beat mid) track i = Some n /\
       Note.start n =
         PFloat (fdiv (fmul (Spec.clock (take (S i) track))
                            (fdiv (Z2F (Spec.tempo (take (S i) track))) (Z2F 1000000)))
                      (Z2F (Mido.ticks_per_beat mid)))) /\
  Spec.clock [] = f_zero /\ Spec.tempo [] = 500000 /\
  exists c0,
    SynToMidConverter.from_midi_file true "song.mid" PNone Sample.song_files
      = Ok (Some c0) /\
    NoteCollection.notes c0 =
      [{| Note.start := PFloat f_half; Note.duration := PFloat f_quarter;
          Note.pitch := PInt 60; Note.velocity := PFloat (fdiv (Z2F 100) f_127);
          Note.channel := PInt 0; Note.channel_name := PStr "" |}].
Proof.
  intros Hfs H.
  destruct (from_midi_file_Ok _ _ _ _ _ _ Hfs H) as (Hsort & _).
  pose proof (sort_by_start_Permutation _ _ Hsort) as Hperm.
  split; [exact Hperm|]. split; [|split; [reflexivity|split; [reflexivity|]]].
  - intros n Hn. rewrite Hperm in Hn. unfold Spec.emitted in Hn.
    apply list_elem_of_In, in_concat in Hn as (l & Hl & Hn).
    apply list_elem_of_In, list_elem_of_fmap in Hl as (track & -> & Htrack).
    apply list_elem_of_In, list_elem_of_omap in Hn as (i & _ & Hi).
    exists track, i. pose proof Hi as Hi'.
    unfold Spec.note_at in Hi. destruct (track !! i) as [m|] eqn:Hm; [|discriminate].
    simpl in Hi. apply note_of_message_Some in Hi as (p & v & ch & _ & _ & ->).
    exists m. auto.
  - eexists. split; [apply song_imported | reflexivity].
Qed.

Lemma midi_tracks_witness :
  Sample.duet_sorted ≡ₚ Spec.emitted Sample.duet /\
  forall n, n ∈ Sample.duet_sorted ->
    exists track i,
      track ∈ Mido.tracks Sample.duet /\
      Spec.note_at 480 track i = Some n.
Proof.
  destruct (midi_tracks "duet.mid" PNone Sample.duet_files Sample.duet true
              Sample.duet_out) as (Hp & Hn & _).
  - reflexivity.
  - vm_compute. reflexivity.
  - split; [exact Hp|]. intros n Hin.
    destruct (Hn n Hin) as (track & i & m & Ht & _ & Hi & _).
    exists track, i. split; [exact Ht | exact Hi].
Defined.

(** ** Sorted output *)

(** C4 as stated fails on the file [Sample.overflow]: the importer returns
    two notes, the first with start 0.0 and the second with start NaN, and
    the starts are not in non-decreasing order. *)
Lemma midi_overflow_not_ordered :
  exists c,
    SynToMidConverter.from_midi_file true "overflow.mid" PNone Sample.overflow_files
      = Ok (Some c) /\
    start_of <$> NoteCollection.notes c = [S754_zero false; S754_nan] /\
    ~ ordered (NoteCollection.notes c).
Proof.
  eexists. split; [vm_compute; reflexivity|]. split; [reflexivity|].
  intros H. specialize (H 0%nat 1%nat _ _ ltac:(lia) eq_refl eq_refl).
  vm_compute in H. discriminate.
Qed.

(** C4, amended: when every start in the collection that the MIDI importer
    returns is a number (no NaN), the starts never decrease along its notes,
    and the notes that start at any one time stand in the order in which they
    were emitted; the notes are those emitted, rearranged. *)
Theorem midi_sorted (path : string) (md : pyval) (fs : files)
    (mid : Mido.MidiFile) (installed : bool) (c : NoteCollection.t) :
  fs !! path = Some (SmfFile mid) ->
  SynToMidConverter.from_midi_file installed path md fs = Ok (Some c) ->
  Forall timed (NoteCollection.notes c) ->
  ordered (NoteCollection.notes c) /\
  (forall t, starting_at t (NoteCollection.notes c) = starting_at t (Spec.emitted mid)) /\
  NoteCollection.notes c ≡ₚ Spec.emitted mid.
Proof.
  intros Hfs H Ht.
  destruct (from_midi_file_Ok _ _ _ _ _ _ Hfs H) as (Hsort & _).
  pose proof (sort_by_start_Permutation _ _ Hsort) as Hperm.
  rewrite Hperm in Ht.
  destruct (sort_loop_keeps [] _ _ (Forall_nil_2 _) Ht (SSorted_nil _) Hsort)
    as (Hs & _ & Hf).
  split; [apply StronglySorted_ordered, Hs|]. split; [exact Hf | exact Hperm].
Qed.

Lemma midi_sorted_witness :
  ordered Sample.duet_sorted /\
  starting_at f_half Sample.duet_sorted =
    starting_at f_half (Spec.emitted Sample.duet).
Proof.
  destruct (midi_sorted "duet.mid" PNone Sample.duet_files Sample.duet true
              Sample.duet_out) as (Ho & Hs & _).
  - reflexivity.
  - vm_compute. reflexivity.
  - repeat constructor; eexists; (split; [reflexivity | reflexivity]).
  - split; [exact Ho | apply Hs].
Defined.

(** ** Metadata of a conversion run *)

(** The JSON importer fills the four keys of the metadata. *)
Lemma from_json_metadata (path : string) (fs : files) (c : NoteCollection.t) :
  FLStudioConverter.from_json path fs = Ok c ->
  exists md, NoteCollection.metadata c = PDict md /\
    is_Some (md !! "title") /\ is_Some (md !! "bpm") /\
    is_Some (md !! "time_signature") /\ is_Some (md !! "duration_seconds").
Proof.
  unfold FLStudioConverter.from_json. intros H. inv_bind H.
  destruct a as [| | | | |l|d]; try discriminate.
  destruct (py_iter (default (PList []) (d !! "notes"))) as [items|e] eqn:Hit.
  - rewrite (from_json_data_loop path d items Hit) in H.
    apply append_loop_inv in H as (ns & _ & ->).
    eexists. split; [reflexivity|].
    repeat split; eexists; reflexivity.
  - unfold FLStudioConverter.from_json_data in H. simpl in H.
    rewrite Hit in H. discriminate.
Qed.

Lemma two_keys_truthy (x y : pyval) :
  truthy (PDict (<["title" := x]> (<["bpm" := y]> ∅))) = true.
Proof.
  simpl. rewrite map_size_insert_None
    by (rewrite lookup_insert_ne; [apply lookup_empty | discriminate]).
  reflexivity.
Qed.

(** C1, on the code: a run of [main] that converts a MIDI file and writes
    the collection writes a metadata mapping with the two keys [title] and
    [bpm] only; [time_signature] and [duration_seconds] are not there. *)
Theorem main_midi_metadata (args : Args) (fs fs' : files) (mid : Mido.MidiFile) :
  fs !! input args = Some (SmfFile mid) ->
  detect args = Some syntomid ->
  main true args fs = Ok (0, fs') ->
  exists out c md,
    fs' = NoteCollection.save c out fs /\
    NoteCollection.to_dict c !! "metadata" = Some (PDict md) /\
    is_Some (md !! "title") /\ md !! "bpm" = Some (PInt (bpm args)) /\
    md !! "time_signature" = None /\ md !! "duration_seconds" = None.
Proof.
  intros _ Hd. unfold main.
  destruct (fs !! Path.str (input args)) as [f|]; [|discriminate]. rewrite Hd.
  destruct (SynToMidConverter.from_midi_file _ _ _ _) as [[c|]|e] eqn:E;
    cbn [mbind result_bind]; try discriminate.
  intros [= <-].
  destruct (from_midi_file_inv _ _ _ _ _ E) as (mid' & Hfs).
  destruct (from_midi_file_Ok _ _ _ _ _ _ Hfs E) as (_ & _ & _ & Hm).
  unfold py_or in Hm. rewrite two_keys_truthy in Hm.
  eexists _, c, _. split; [reflexivity|]. split.
  - change (NoteCollection.to_dict c !! "metadata")
      with (Some (NoteCollection.metadata c)).
    f_equal. exact Hm.
  - repeat split. eexists. reflexivity.
Qed.

Lemma main_midi_metadata_witness :
  exists out c md,
    main true Sample.song_args Sample.song_files =
      Ok (0, NoteCollection.save c out Sample.song_files) /\
    NoteCollection.to_dict c !! "metadata" = Some (PDict md) /\
    md !! "time_signature" = None /\ md !! "duration_seconds" = None.
Proof.
  assert (main true Sample.song_args Sample.song_files =
            Ok (0, NoteCollection.save Sample.song_out "song.json" Sample.song_files))
    as Hrun by (vm_compute; reflexivity).
  destruct (main_midi_metadata Sample.song_args Sample.song_files _ Sample.song
              eq_refl eq_refl Hrun)
    as (out & c & md & Hfs & Hmd & _ & _ & Hts & Hds).
  exists out, c, md. rewrite Hrun, Hfs. auto.
Defined.

(** * Further properties *)

(** ** Integers that are exact as floats *)

Lemma digits2_pos_iter (p k : positive) :
  digits2_pos (Pos.iter xO p k) = (digits2_pos p + k)%positive.
Proof.
  induction k as [|k IH] using Pos.peano_ind.
  - simpl. rewrite Pos.add_1_r. reflexivity.
  - rewrite Pos.iter_succ. simpl. rewrite IH, Pos.add_succ_r. reflexivity.
Qed.

Lemma digits2_pos_lower (p : positive) :
  2 ^ (Z.pos (digits2_pos p) - 1) <= Z.pos p.
Proof.
  induction p as [p IH|p IH|]; simpl digits2_pos.
  - rewrite Pos2Z.inj_succ. replace (Z.succ (Z.pos (digits2_pos p)) - 1)
      with (Z.succ (Z.pos (digits2_pos p) - 1)) by lia.
    rewrite Z.pow_succ_r by lia. lia.
  - rewrite Pos2Z.inj_succ. replace (Z.succ (Z.pos (digits2_pos p)) - 1)
      with (Z.succ (Z.pos (digits2_pos p) - 1)) by lia.
    rewrite Z.pow_succ_r by lia. lia.
  - simpl. lia.
Qed.

Lemma digits2_pos_le_53 (p : positive) :
  Z.pos p < 2 ^ 53 -> Z.pos (digits2_pos p) <= 53.
Proof.
  intros Hp. pose proof (digits2_pos_lower p) as Hl.
  destruct (Z.le_gt_cases (Z.pos (digits2_pos p)) 53) as [H|H]; [exact H|].
  exfalso. assert (2 ^ 53 <= 2 ^ (Z.pos (digits2_pos p) - 1))
    by (apply Z.pow_le_mono_r; lia). lia.
Qed.

(** A mantissa of 53 bits with an exponent in range is not rounded. *)
Lemma binary_round_aux_canonical (sx : bool) (mz : positive) (ez : Z) :
  digits2_pos mz = 53%positive -> -1074 <= ez <= 971 ->
  binary_round_aux prec emax sx (Z.pos mz) ez loc_Exact = S754_finite sx mz ez.
Proof.
  intros Hd He. unfold binary_round_aux, shr_fexp, fexp, emin, prec, emax.
  simpl Zdigits2. rewrite Hd.
  replace (Z.max (53 + ez - 53) (3 - 1024 - 53) - ez) with 0 by lia.
  simpl. rewrite Hd.
  replace (Z.max (53 + ez - 53) (3 - 1024 - 53) - ez) with 0 by lia.
  simpl. change (1024 - 53) with 971.
  destruct (Z.leb_spec ez 971); [reflexivity | lia].
Qed.

Lemma binary_round_small (sx : bool) (p : positive) :
  Z.pos p < 2 ^ 53 ->
  exists m e, binary_round prec emax sx p 0 = S754_finite sx m e.
Proof.
  intros Hp. pose proof (digits2_pos_le_53 p Hp) as Hd.
  unfold binary_round, fexp, emin, prec, emax, shl_align.
  replace (Z.max (Z.pos (digits2_pos p) + 0 - 53) (3 - 1024 - 53))
    with (Z.pos (digits2_pos p) - 53) by lia.
  destruct (Z.pos (digits2_pos p) - 53 - 0) as [|k|k] eqn:E; try lia.
  - eexists _, _. apply binary_round_aux_canonical; [|lia].
    apply Pos2Z.inj. lia.
  - eexists _, _. apply binary_round_aux_canonical; [|lia].
    rewrite digits2_pos_iter. apply Pos2Z.inj. rewrite Pos2Z.inj_add. lia.
Qed.

(** An integer of magnitude below 2^53 converts without exception, to a
    number that is zero only for 0. *)
Lemma float_of_int_small (z : Z) :
  - 2 ^ 53 < z < 2 ^ 53 ->
  float_of_int z = Ok (Z2F z) /\ is_nan (Z2F z) = false /\
  (z <> 0 -> is_zero (Z2F z) = false).
Proof.
  intros Hz. unfold float_of_int, Z2F, binary_normalize. destruct z as [|p|p].
  - repeat split. congruence.
  - destruct (binary_round_small false p) as (m & e & ->); [lia|].
    repeat split.
  - destruct (binary_round_small true p) as (m & e & ->).
    + change (Z.pos p) with (- Z.neg p). lia.
    + repeat split.
Qed.

(** ** When the MIDI importer raises *)

Lemma for_each_app {A S} (body : S -> A -> result S) (s : S) (l k : list A) :
  for_each body s (l ++ k) = (s' ← for_each body s l; for_each body s' k).
Proof.
  revert s. induction l as [|x l IH]; intros s; simpl; [reflexivity|].
  destruct (body s x); simpl; auto.
Qed.

Lemma f_127_not_zero : is_zero f_127 = false.
Proof. reflexivity. Qed.

(** One message of a file in range: the only exception is the division by a
    [ticks_per_beat] of 0, at a message that makes a note. *)
Lemma on_message_cases (tpb : Z) (st : SynToMidConverter.locals) (m : Mido.Message) :
  0 <= Mido.time m < 2 ^ 53 -> Mido.attrs_in_range (Mido.body m) ->
  0 <= SynToMidConverter.tempo st < 2 ^ 53 -> - 2 ^ 53 < tpb < 2 ^ 53 ->
  if sounding m && (tpb =? 0)
  then SynToMidConverter.on_message tpb st m = Raise ZeroDivisionError
  else exists st', SynToMidConverter.on_message tpb st m = Ok st' /\
                   0 <= SynToMidConverter.tempo st' < 2 ^ 53.
Proof.
  intros Ht Ha Hs Hb. unfold SynToMidConverter.on_message, sounding.
  destruct (float_of_int_small (Mido.time m)) as (-> & _ & _); [lia|].
  cbn [mbind result_bind].
  destruct (Mido.body m) as [t|p v ch|p v ch|ty]; simpl in Ha; cbn [andb].
  - eexists. split; [reflexivity|]. simpl. lia.
  - destruct (0 <? v) eqn:Ev; cbn [andb].
    + unfold int_truediv. change (1000000 =? 0) with false. cbv iota.
      destruct (float_of_int_small (SynToMidConverter.tempo st)) as (-> & _ & _);
        [lia|].
      destruct (float_of_int_small 1000000) as (-> & _ & _); [lia|].
      destruct (float_of_int_small tpb) as (-> & _ & Hz); [lia|].
      destruct (float_of_int_small v) as (-> & _ & _); [lia|].
      cbn [mbind result_bind]. unfold float_truediv.
      destruct (Z.eqb_spec tpb 0) as [->|Hne].
      * reflexivity.
      * rewrite (Hz Hne), f_127_not_zero. cbn [mbind result_bind].
        eexists. split; [reflexivity|]. exact Hs.
    + eexists. split; [reflexivity|]. exact Hs.
  - eexists. split; [reflexivity|]. exact Hs.
  - eexists. split; [reflexivity|]. exact Hs.
Qed.

Lemma on_messages_cases (tpb : Z) (msgs : list Mido.Message)
    (st : SynToMidConverter.locals) :
  Forall (fun m => (0 <= Mido.time m /\ Mido.attrs_in_range (Mido.body m)) /\
                   Mido.time m < 2 ^ 53) msgs ->
  0 <= SynToMidConverter.tempo st < 2 ^ 53 -> - 2 ^ 53 < tpb < 2 ^ 53 ->
  if existsb sounding msgs && (tpb =? 0)
  then for_each (SynToMidConverter.on_message tpb) st msgs = Raise ZeroDivisionError
  else is_Ok (for_each (SynToMidConverter.on_message tpb) st msgs).
Proof.
  intros Hm. revert st. induction Hm as [|m msgs [[H0 Ha] H1] _ IH]; intros st Hs Hb.
  - eexists. reflexivity.
  - pose proof (on_message_cases tpb st m (conj H0 H1) Ha Hs Hb) as Hc.
    cbn [existsb for_each].
    destruct (sounding m) eqn:Em; destruct (tpb =? 0) eqn:Et; cbn [orb andb] in *.
    + rewrite Hc. reflexivity.
    + destruct Hc as (st' & -> & Hs'). cbn [mbind result_bind].
      specialize (IH st' Hs' Hb). rewrite andb_false_r in IH. exact IH.
    + destruct Hc as (st' & -> & Hs'). cbn [mbind result_bind].
      exact (IH st' Hs' Hb).
    + destruct Hc as (st' & -> & Hs'). cbn [mbind result_bind].
      exact (IH st' Hs' Hb).
Qed.

Lemma on_track_cases (tpb : Z) (track : list Mido.Message) (c : NoteCollection.t) :
  Forall (fun m => (0 <= Mido.time m /\ Mido.attrs_in_range (Mido.body m)) /\
                   Mido.time m < 2 ^ 53) track ->
  - 2 ^ 53 < tpb < 2 ^ 53 ->
  if existsb sounding track && (tpb =? 0)
  then SynToMidConverter.on_track tpb c track = Raise ZeroDivisionError
  else is_Ok (SynToMidConverter.on_track tpb c track).
Proof.
  intros Hm Hb. unfold SynToMidConverter.on_track.
  pose proof (on_messages_cases tpb track
    {| SynToMidConverter.current_time := f_zero; SynToMidConverter.tempo := 500000;
       SynToMidConverter.collection := c |} Hm ltac:(simpl; lia) Hb) as H.
  destruct (existsb sounding track && (tpb =? 0)).
  - rewrite H. reflexivity.
  - destruct H as [st' ->]. eexists. reflexivity.
Qed.

Lemma on_tracks_cases (tpb : Z) (tracks : list (list Mido.Message))
    (c : NoteCollection.t) :
  Forall (Forall (fun m => (0 <= Mido.time m /\ Mido.attrs_in_range (Mido.body m)) /\
                           Mido.time m < 2 ^ 53)) tracks ->
  - 2 ^ 53 < tpb < 2 ^ 53 ->
  if existsb (existsb sounding) tracks && (tpb =? 0)
  then for_each (SynToMidConverter.on_track tpb) c tracks = Raise ZeroDivisionError
  else is_Ok (for_each (SynToMidConverter.on_track tpb) c tracks).
Proof.
  intros Hm Hb. revert c. induction Hm as [|t tracks Ht _ IH]; intros c.
  - eexists. reflexivity.
  - pose proof (on_track_cases tpb t c Ht Hb) as Hc. cbn [existsb for_each].
    destruct (existsb sounding t) eqn:Em; destruct (tpb =? 0) eqn:Et;
      cbn [orb andb] in *.
    + rewrite Hc. reflexivity.
    + destruct Hc as (c' & ->). cbn [mbind result_bind].
      specialize (IH c'). rewrite andb_false_r in IH. exact IH.
    + destruct Hc as (c' & ->). cbn [mbind result_bind].
      exact (IH c').
    + destruct Hc as (c' & ->). cbn [mbind result_bind].
      exact (IH c').
Qed.

Lemma in_range_small (mid : Mido.MidiFile) :
  Mido.in_range mid -> small_times mid ->
  Forall (Forall (fun m => (0 <= Mido.time m /\ Mido.attrs_in_range (Mido.body m)) /\
                           Mido.time m < 2 ^ 53)) (Mido.tracks mid) /\
  - 2 ^ 53 < Mido.ticks_per_beat mid < 2 ^ 53.
Proof.
  intros [Hb Hr] Hs. split; [|lia]. unfold small_times in Hs.
  rewrite Forall_forall in *. intros t Ht.
  specialize (Hr t Ht). specialize (Hs t Ht).
  rewrite Forall_forall in *. intros m Hm. split; [apply Hr | apply Hs]; exact Hm.
Qed.

(** The sort raises nothing when every start is a float. *)
Lemma insort_floated (x : Note.t) (l : list Note.t) :
  floated x -> Forall floated l ->
  exists r, insort x l = Ok r /\ Forall floated r.
Proof.
  intros [fx Hx]. induction 1 as [|y l [fy Hy] Hl IH].
  - eexists. split; [reflexivity|]. repeat constructor. exists fx. exact Hx.
  - simpl. rewrite Hx, Hy. cbn [py_lt mbind result_bind].
    destruct (SFltb fx fy).
    + eexists. split; [reflexivity|].
      repeat constructor; eauto. exists fx. exact Hx. exists fy. exact Hy.
    + destruct IH as (r & -> & Hr). eexists. split; [reflexivity|].
      constructor; [exists fy; exact Hy | exact Hr].
Qed.

Lemma sort_floated (acc l : list Note.t) :
  Forall floated acc -> Forall floated l ->
  is_Ok (for_each (fun sorted x => insort x sorted) acc l).
Proof.
  intros Hacc Hl. revert acc Hacc.
  induction Hl as [|x l Hx Hl IH]; intros acc Hacc; simpl.
  - eexists. reflexivity.
  - destruct (insort_floated x acc Hx Hacc) as (r & -> & Hr). simpl. apply IH, Hr.
Qed.

Lemma emitted_floated (mid : Mido.MidiFile) : Forall floated (Spec.emitted mid).
Proof.
  apply Forall_forall. intros n Hn.
  apply elem_of_emitted in Hn as (track & i & m & ticks & tempo & _ & _ & Hm).
  apply note_of_message_Some in Hm as (p & v & ch & _ & _ & ->).
  eexists. reflexivity.
Qed.

Lemma from_midi_file_result (path : string) (md : pyval) (fs : files)
    (mid : Mido.MidiFile) :
  fs !! path = Some (SmfFile mid) ->
  Mido.in_range mid -> small_times mid ->
  if existsb (existsb sounding) (Mido.tracks mid) && (Mido.ticks_per_beat mid =? 0)
  then SynToMidConverter.from_midi_file true path md fs = Raise ZeroDivisionError
  else exists c, SynToMidConverter.from_midi_file true path md fs = Ok (Some c).
Proof.
  intros Hfs Hr Hs. destruct (in_range_small mid Hr Hs) as [Hm Hb].
  unfold SynToMidConverter.from_midi_file, read_midi. rewrite Hfs.
  cbn [negb mbind result_bind].
  pose proof (on_tracks_cases (Mido.ticks_per_beat mid) (Mido.tracks mid)
    (NoteCollection.init (PStr "1.0") (PStr "syntomid")
       (py_or md (PDict (SynToMidConverter.default_metadata path)))) Hm Hb) as H.
  destruct (existsb (existsb sounding) (Mido.tracks mid)
            && (Mido.ticks_per_beat mid =? 0)).
  - rewrite H. reflexivity.
  - destruct H as [c' Hc']. rewrite Hc'. cbn [mbind result_bind].
    apply on_tracks_Ok in Hc'. subst c'.
    destruct (sort_floated [] (Spec.emitted mid) (Forall_nil_2 _)
                (emitted_floated mid)) as [r Hr'].
    unfold sort_by_start. simpl. unfold Spec.emitted in Hr'. rewrite Hr'.
    eexists. reflexivity.
Qed.

(** X1: with mido installed, the importer returns a collection for every
    MIDI file whose values are in the ranges of the format, whose delta times
    are below 2^53 and whose [ticks_per_beat] is not 0; the collection has
    one note per note-on with a velocity above 0. *)
Theorem midi_import_succeeds (path : string) (md : pyval) (fs : files)
    (mid : Mido.MidiFile) :
  fs !! path = Some (SmfFile mid) ->
  Mido.in_range mid -> small_times mid -> Mido.ticks_per_beat mid <> 0 ->
  exists c,
    SynToMidConverter.from_midi_file true path md fs = Ok (Some c) /\
    length (NoteCollection.notes c) =
      length (filter (fun m => sounding m = true) (concat (Mido.tracks mid))).
Proof.
  intros Hfs Hr Hs Hne. pose proof (from_midi_file_result path md fs mid Hfs Hr Hs) as H.
  destruct (Z.eqb_spec (Mido.ticks_per_beat mid) 0) as [E|_]; [contradiction|].
  rewrite andb_false_r in H. destruct H as [c Hc]. exists c. split; [exact Hc|].
  destruct (from_midi_file_Ok _ _ _ _ _ _ Hfs Hc) as (Hsort & _).
  rewrite (sort_by_start_Permutation _ _ Hsort). apply emitted_length.
Qed.

Lemma midi_import_succeeds_witness :
  exists c,
    SynToMidConverter.from_midi_file true "duet.mid" PNone Sample.duet_files
      = Ok (Some c) /\
    length (NoteCollection.notes c) = 3%nat.
Proof.
  destruct (midi_import_succeeds "duet.mid" PNone Sample.duet_files Sample.duet)
    as (c & Hc & Hlen).
  - reflexivity.
  - split; [simpl; lia|]. repeat constructor; simpl; lia.
  - repeat constructor; simpl; lia.
  - discriminate.
  - exists c. split; [exact Hc | exact Hlen].
Defined.

Lemma silent_filter (tracks : list (list Mido.Message)) :
  Forall silent tracks ->
  filter (fun m => sounding m = true) (concat tracks) = [].
Proof.
  intros H. apply filter_none. intros m Hm.
  apply list_elem_of_In, in_concat in Hm as (t & Ht & Hm).
  rewrite Forall_forall in H. specialize (H t (proj2 (list_elem_of_In _ _) Ht)).
  unfold silent in H. rewrite Forall_forall in H.
  rewrite (H m (proj2 (list_elem_of_In _ _) Hm)). discriminate.
Qed.

(** X2: for a MIDI file whose values are in the ranges of the parser, whose
    delta times are below 2^53 and whose [ticks_per_beat] is 0, the importer
    raises ZeroDivisionError as soon as one track has a note-on with a
    velocity above 0; when no track has one it divides nothing and returns a
    collection without notes. *)
Theorem midi_zero_division (path : string) (md : pyval) (fs : files)
    (mid : Mido.MidiFile) :
  fs !! path = Some (SmfFile mid) ->
  Mido.in_range mid -> small_times mid -> Mido.ticks_per_beat mid = 0 ->
  (Exists (Exists (fun m => sounding m = true)) (Mido.tracks mid) ->
     SynToMidConverter.from_midi_file true path md fs = Raise ZeroDivisionError) /\
  (Forall silent (Mido.tracks mid) ->
     exists c, SynToMidConverter.from_midi_file true path md fs = Ok (Some c) /\
               NoteCollection.notes c = []).
Proof.
  intros Hfs Hr Hs Hz. pose proof (from_midi_file_result path md fs mid Hfs Hr Hs) as H.
  rewrite Hz in H. change (0 =? 0) with true in H. rewrite andb_true_r in H. split.
  - intros Hex. replace (existsb (existsb sounding) (Mido.tracks mid)) with true in H;
      [exact H|].
    symmetry. apply existsb_exists. apply Exists_exists in Hex as (t & Ht & Hex).
    exists t. split; [apply list_elem_of_In, Ht|].
    apply existsb_exists. apply Exists_exists in Hex as (m & Hm & Hsm).
    exists m. split; [apply list_elem_of_In, Hm | exact Hsm].
  - intros Hsil. replace (existsb (existsb sounding) (Mido.tracks mid)) with false in H.
    + destruct H as [c Hc]. exists c. split; [exact Hc|].
      destruct (from_midi_file_Ok _ _ _ _ _ _ Hfs Hc) as (Hsort & _).
      apply sort_by_start_Permutation in Hsort.
      apply length_zero_iff_nil. rewrite Hsort, emitted_length, silent_filter by exact Hsil.
      reflexivity.
    + symmetry. apply not_true_is_false. intros Hex.
      apply existsb_exists in Hex as (t & Ht & Hex).
      apply existsb_exists in Hex as (m & Hm & Hsm).
      rewrite Forall_forall in Hsil.
      specialize (Hsil t (proj2 (list_elem_of_In _ _) Ht)).
      unfold silent in Hsil. rewrite Forall_forall in Hsil.
      rewrite (Hsil m (proj2 (list_elem_of_In _ _) Hm)) in Hsm. discriminate.
Qed.

Lemma midi_zero_division_witness :
  SynToMidConverter.from_midi_file true "u.mid" PNone
    (<["u.mid" := SmfFile Sample2.undivided]> ∅) = Raise ZeroDivisionError /\
  exists c,
    SynToMidConverter.from_midi_file true "s.mid" PNone
      (<["s.mid" := SmfFile Sample2.undivided_silent]> ∅) = Ok (Some c) /\
    NoteCollection.notes c = [].
Proof.
  split.
  - destruct (midi_zero_division "u.mid" PNone
                (<["u.mid" := SmfFile Sample2.undivided]> ∅) Sample2.undivided)
      as [H _].
    + reflexivity.
    + split; [simpl; lia|]. repeat constructor; simpl; lia.
    + repeat constructor; simpl; lia.
    + reflexivity.
    + apply H. left. right. left. reflexivity.
  - destruct (midi_zero_division "s.mid" PNone
                (<["s.mid" := SmfFile Sample2.undivided_silent]> ∅)
                Sample2.undivided_silent) as [_ H].
    + reflexivity.
    + split; [simpl; lia|]. repeat constructor; simpl; lia.
    + repeat constructor; simpl; lia.
    + reflexivity.
    + apply H. repeat constructor.
Defined.

(** ** Tracks without notes, and the shape of a MIDI note *)

Lemma on_message_silent (tpb : Z) (st : SynToMidConverter.locals)
    (m : Mido.Message) :
  sounding m = false -> - 2 ^ 53 < Mido.time m < 2 ^ 53 ->
  exists st', SynToMidConverter.on_message tpb st m = Ok st' /\
              SynToMidConverter.collection st' = SynToMidConverter.collection st.
Proof.
  intros Hs Ht. unfold SynToMidConverter.on_message, sounding in *.
  destruct (float_of_int_small (Mido.time m) Ht) as (-> & _ & _).
  cbn [mbind result_bind].
  destruct (Mido.body m) as [t|p v ch|p v ch|ty];
    try (eexists; split; reflexivity).
  rewrite Hs. eexists; split; reflexivity.
Qed.

Lemma on_track_silent (tpb : Z) (c : NoteCollection.t) (t : list Mido.Message) :
  silent t -> Forall (fun m => - 2 ^ 53 < Mido.time m < 2 ^ 53) t ->
  SynToMidConverter.on_track tpb c t = Ok c.
Proof.
  intros Hs Ht. unfold SynToMidConverter.on_track.
  assert (forall st, exists st',
    for_each (SynToMidConverter.on_message tpb) st t = Ok st' /\
    SynToMidConverter.collection st' = SynToMidConverter.collection st) as H.
  { unfold silent in Hs. induction t as [|m t IH]; intros st.
    - exists st. split; reflexivity.
    - apply Forall_cons in Hs as [Hm Hs]. apply Forall_cons in Ht as [Htm Ht].
      destruct (on_message_silent tpb st m Hm Htm) as (st1 & E1 & C1).
      destruct (IH Hs Ht st1) as (st' & E' & C').
      exists st'. cbn [for_each]. rewrite E1. cbn [mbind result_bind].
      split; [exact E' | congruence]. }
  destruct (H {| SynToMidConverter.current_time := f_zero;
                 SynToMidConverter.tempo := 500000;
                 SynToMidConverter.collection := c |}) as (st' & -> & C).
  cbn [mbind result_bind]. f_equal. exact C.
Qed.

(** X3: a track without a note-on of velocity above 0 (a tempo track, for
    one) whose delta times are below 2^53 in absolute value changes nothing:
    a file and the same file without that track give the same result, the
    same collection or the same exception, so the tempo messages and the
    clock of one track never reach the notes of another. *)
Theorem silent_track_ignored (path : string) (md : pyval)
    (fs fs' : files) (mid mid' : Mido.MidiFile)
    (ts1 ts2 : list (list Mido.Message)) (t : list Mido.Message)
    (installed : bool) :
  fs !! path = Some (SmfFile mid) ->
  fs' !! path = Some (SmfFile mid') ->
  Mido.ticks_per_beat mid' = Mido.ticks_per_beat mid ->
  Mido.tracks mid = ts1 ++ t :: ts2 ->
  Mido.tracks mid' = ts1 ++ ts2 ->
  silent t ->
  Forall (fun m => - 2 ^ 53 < Mido.time m < 2 ^ 53) t ->
  SynToMidConverter.from_midi_file installed path md fs =
    SynToMidConverter.from_midi_file installed path md fs'.
Proof.
  intros Hfs Hfs' Htpb Ht Ht' Hsil Hsmall.
  unfold SynToMidConverter.from_midi_file, read_midi.
  rewrite Hfs, Hfs'. destruct installed; [|reflexivity].
  cbn [negb mbind result_bind]. rewrite Htpb, Ht, Ht', !for_each_app.
  destruct (for_each _ _ ts1) as [c1|e]; cbn [mbind result_bind]; [|reflexivity].
  cbn [for_each]. rewrite (on_track_silent _ c1 t Hsil Hsmall). reflexivity.
Qed.

Lemma silent_track_ignored_witness :
  SynToMidConverter.from_midi_file true "duet.mid" PNone
    (<["duet.mid" := SmfFile Sample2.conducted]> ∅) = Ok (Some Sample.duet_out).
Proof.
  rewrite (silent_track_ignored "duet.mid" PNone
             (<["duet.mid" := SmfFile Sample2.conducted]> ∅) Sample.duet_files
             Sample2.conducted Sample.duet [] (Mido.tracks Sample.duet)
             Sample2.tempo_track true).
  - vm_compute. reflexivity.
  - reflexivity.
  - reflexivity.
  - reflexivity.
  - reflexivity.
  - reflexivity.
  - repeat constructor.
  - repeat constructor.
Defined.

(** ** Saved collections *)

Lemma init_metadata_not_None (v s m : pyval) :
  NoteCollection.metadata (NoteCollection.init v s m) <> PNone.
Proof. destruct m; discriminate. Qed.

Lemma loaded_header_to_dict (c : NoteCollection.t) :
  NoteCollection.metadata c <> PNone ->
  loaded_header (NoteCollection.to_dict c) = NoteCollection.set_notes c [].
Proof.
  intros Hm. unfold loaded_header.
  change (NoteCollection.to_dict c !! "version") with (Some (NoteCollection.version c)).
  change (NoteCollection.to_dict c !! "source") with (Some (NoteCollection.source c)).
  change (NoteCollection.to_dict c !! "metadata") with (Some (NoteCollection.metadata c)).
  destruct c as [v s m ns]. simpl in *. unfold NoteCollection.init.
  destruct m; try reflexivity. contradiction.
Qed.

Lemma storable_reloaded (n : Note.t) : storable n -> reloaded n = n.
Proof.
  intros [H|H]; [|apply unnamed_reloaded, H].
  unfold reloaded. rewrite H. reflexivity.
Qed.

Lemma storable_all_reloaded (l : list Note.t) :
  Forall storable l -> reloaded <$> l = l.
Proof.
  induction 1 as [|n l Hn _ IH]; simpl; [reflexivity|].
  rewrite (storable_reloaded n Hn). f_equal. exact IH.
Qed.

Lemma load_save_collection (c : NoteCollection.t) (path : string) (fs : files) :
  NoteCollection.metadata c <> PNone ->
  NoteCollection.load path (NoteCollection.save c path fs) =
    Ok (NoteCollection.set_notes c (reloaded <$> NoteCollection.notes c)).
Proof.
  intros Hm. rewrite load_save, (loaded_header_to_dict c Hm). reflexivity.
Qed.

(** X4: a collection whose metadata is not None and whose channel names
    each test true or are the empty string is read back whole: [load] after
    [save] returns the collection itself, version, source, metadata and
    notes. *)
Theorem save_load_identity (c : NoteCollection.t) (path : string) (fs : files) :
  NoteCollection.metadata c <> PNone ->
  Forall storable (NoteCollection.notes c) ->
  NoteCollection.load path (NoteCollection.save c path fs) = Ok c.
Proof.
  intros Hm Hs. rewrite (load_save_collection c path fs Hm).
  rewrite (storable_all_reloaded _ Hs). destruct c; reflexivity.
Qed.

Lemma save_load_identity_witness :
  NoteCollection.load "out.json"
    (NoteCollection.save Sample.mixed_song "out.json" ∅) = Ok Sample.mixed_song.
Proof.
  apply (save_load_identity Sample.mixed_song "out.json" ∅).
  - discriminate.
  - apply Forall_cons. split; [left; reflexivity|].
    apply Forall_cons. split; [right; reflexivity|]. apply Forall_nil_2.
Defined.

Lemma asdict_lookup_other (n n' : Note.t) (k : string) :
  Note.start n' = Note.start n -> Note.duration n' = Note.duration n ->
  Note.pitch n' = Note.pitch n -> Note.velocity n' = Note.velocity n ->
  Note.channel n' = Note.channel n -> k <> "channel_name" ->
  Note.asdict n' !! k = Note.asdict n !! k.
Proof.
  intros H1 H2 H3 H4 H5 Hk. unfold Note.asdict. rewrite H1, H2, H3, H4, H5.
  rewrite !lookup_insert. repeat case_decide; congruence.
Qed.

Lemma to_dict_reloaded (n : Note.t) : Note.to_dict (reloaded n) = Note.to_dict n.
Proof.
  apply map_eq. intros k. rewrite !to_dict_lookup. unfold reloaded.
  destruct (truthy (Note.channel_name n)) eqn:E; [rewrite E; reflexivity|].
  destruct (String.eqb_spec k "channel_name") as [->|Hk]; [reflexivity|].
  apply asdict_lookup_other; auto.
Qed.

(** X5: for every collection whose metadata is not None, the collection
    that [load] returns after [save] serializes to the mapping that was
    saved: saving it again writes the same file, whatever the channel names. *)
Theorem save_load_save (c : NoteCollection.t) (path : string) (fs : files) :
  NoteCollection.metadata c <> PNone ->
  exists c',
    NoteCollection.load path (NoteCollection.save c path fs) = Ok c' /\
    NoteCollection.to_dict c' = NoteCollection.to_dict c /\
    NoteCollection.save c' path fs = NoteCollection.save c path fs.
Proof.
  intros Hm. eexists. split; [apply (load_save_collection c path fs Hm)|].
  assert (NoteCollection.to_dict
            (NoteCollection.set_notes c (reloaded <$> NoteCollection.notes c))
          = NoteCollection.to_dict c) as E.
  { unfold NoteCollection.to_dict. simpl. rewrite <- list_fmap_compose.
    do 5 f_equal. apply list_fmap_ext. intros i n _. simpl.
    rewrite to_dict_reloaded. reflexivity. }
  split; [exact E|]. unfold NoteCollection.save. rewrite E. reflexivity.
Qed.

Lemma save_load_save_witness :
  exists c',
    NoteCollection.load "out.json"
      (NoteCollection.save Sample2.unnamed_song "out.json" ∅) = Ok c' /\
    NoteCollection.save c' "out.json" ∅ =
      NoteCollection.save Sample2.unnamed_song "out.json" ∅.
Proof.
  destruct (save_load_save Sample2.unnamed_song "out.json" ∅)
    as (c' & Hc & _ & Hs).
  - discriminate.
  - exists c'. split; [exact Hc | exact Hs].
Defined.

(** X6: a note whose channel name tests false without being the empty
    string (None, 0, False, an empty list or mapping) is written without the
    [channel_name] key and read back with the empty string as channel name:
    the other five fields are kept, the note itself is not. *)
Theorem falsy_channel_name_lost (c : NoteCollection.t) (path : string)
    (fs : files) (i : nat) (n : Note.t) :
  NoteCollection.notes c !! i = Some n ->
  truthy (Note.channel_name n) = false ->
  Note.channel_name n <> PStr "" ->
  Note.to_dict n !! "channel_name" = None /\
  exists c' n',
    NoteCollection.load path (NoteCollection.save c path fs) = Ok c' /\
    NoteCollection.notes c' !! i = Some n' /\
    n' <> n /\ Note.channel_name n' = PStr "" /\
    Note.start n' = Note.start n /\ Note.duration n' = Note.duration n /\
    Note.pitch n' = Note.pitch n /\ Note.velocity n' = Note.velocity n /\
    Note.channel n' = Note.channel n.
Proof.
  intros Hi Ht Hne. split; [rewrite to_dict_lookup, Ht; reflexivity|].
  eexists _, (reloaded n). split; [apply load_save|]. split.
  - simpl. rewrite list_lookup_fmap, Hi. reflexivity.
  - unfold reloaded. rewrite Ht. simpl. repeat split.
    intros E. apply Hne. rewrite <- E. reflexivity.
Qed.

Lemma falsy_channel_name_lost_witness :
  exists c' n',
    NoteCollection.load "out.json"
      (NoteCollection.save Sample2.unnamed_song "out.json" ∅) = Ok c' /\
    NoteCollection.notes c' !! 1%nat = Some n' /\
    n' <> Sample2.unnamed /\ Note.channel_name n' = PStr "".
Proof.
  destruct (falsy_channel_name_lost Sample2.unnamed_song "out.json" ∅ 1%nat
              Sample2.unnamed) as (_ & c' & n' & Hc & Hn & Hne & Hcn & _).
  - reflexivity.
  - reflexivity.
  - discriminate.
  - exists c', n'. auto.
Defined.

(** ** What the MIDI importer returns *)

Lemma midi_note_source (path : string) (md : pyval) (fs : files)
    (mid : Mido.MidiFile) (installed : bool) (c : NoteCollection.t) (n : Note.t) :
  fs !! path = Some (SmfFile mid) ->
  SynToMidConverter.from_midi_file installed path md fs = Ok (Some c) ->
  n ∈ NoteCollection.notes c ->
  exists track m p v ch,
    track ∈ Mido.tracks mid /\ m ∈ track /\
    Mido.body m = Mido.note_on p v ch /\ 0 < v /\
    Note.pitch n = PInt p /\ Note.channel n = PInt ch /\
    Note.channel_name n = PStr "".
Proof.
  intros Hfs Hc Hn.
  destruct (from_midi_file_Ok _ _ _ _ _ _ Hfs Hc) as (Hsort & _).
  apply sort_by_start_Permutation in Hsort. rewrite Hsort in Hn.
  apply elem_of_emitted in Hn as (track & i & m & ticks & tempo & Ht & Hi & Hm).
  apply note_of_message_Some in Hm as (p & v & ch & Hb & Hv & ->).
  exists track, m, p, v, ch. repeat split; try assumption.
  eapply list_elem_of_lookup_2, Hi.
Qed.

(** X7: every note that the MIDI importer returns comes from a note-on
    message of the file with a velocity above 0: pitch and channel are the
    integers of that message, the channel name is the empty string, so that
    the serialized note has no [channel_name] key; and the returned
    collection is saved without loss: [load] after [save] gives it back. *)
Theorem midi_notes_copied (path : string) (md : pyval) (fs : files)
    (mid : Mido.MidiFile) (installed : bool) (c : NoteCollection.t) :
  fs !! path = Some (SmfFile mid) ->
  SynToMidConverter.from_midi_file installed path md fs = Ok (Some c) ->
  (forall n, n ∈ NoteCollection.notes c ->
     Note.to_dict n !! "channel_name" = None /\
     exists track m p v ch,
       track ∈ Mido.tracks mid /\ m ∈ track /\
       Mido.body m = Mido.note_on p v ch /\ 0 < v /\
       Note.pitch n = PInt p /\ Note.channel n = PInt ch /\
       Note.channel_name n = PStr "") /\
  (forall out fs',
     NoteCollection.load out (NoteCollection.save c out fs') = Ok c).
Proof.
  intros Hfs Hc. split.
  - intros n Hn.
    destruct (midi_note_source _ _ _ _ _ _ n Hfs Hc Hn)
      as (track & m & p & v & ch & H).
    split; [|eauto 10].
    rewrite to_dict_lookup. destruct H as (_ & _ & _ & _ & _ & _ & ->).
    reflexivity.
  - intros out fs'.
    destruct (from_midi_file_Ok _ _ _ _ _ _ Hfs Hc) as (_ & _ & _ & Hm).
    rewrite load_save_collection
      by (rewrite Hm; apply init_metadata_not_None).
    rewrite storable_all_reloaded; [destruct c; reflexivity|].
    apply Forall_forall. intros n Hn. right.
    destruct (midi_note_source _ _ _ _ _ _ n Hfs Hc Hn)
      as (_ & _ & _ & _ & _ & _ & _ & _ & _ & _ & _ & H).
    exact H.
Qed.

Lemma midi_notes_copied_witness :
  (forall n, n ∈ Sample.duet_sorted ->
     Note.to_dict n !! "channel_name" = None /\
     exists track m p v ch,
       track ∈ Mido.tracks Sample.duet /\ m ∈ track /\
       Mido.body m = Mido.note_on p v ch /\ 0 < v /\
       Note.pitch n = PInt p /\ Note.channel n = PInt ch /\
       Note.channel_name n = PStr "") /\
  NoteCollection.load "duet.json"
    (NoteCollection.save Sample.duet_out "duet.json" Sample.duet_files) =
    Ok Sample.duet_out.
Proof.
  destruct (midi_notes_copied "duet.mid" PNone Sample.duet_files Sample.duet true
              Sample.duet_out) as [Hn Hl].
  - reflexivity.
  - vm_compute. reflexivity.
  - split; [exact Hn | apply Hl].
Defined.

(** ** Runs of [main] *)

Lemma from_json_inv (path : string) (fs : files) (c : NoteCollection.t) :
  FLStudioConverter.from_json path fs = Ok c ->
  exists d items ns,
    fs !! path = Some (JsonFile (PDict d)) /\
    py_iter (default (PList []) (d !! "notes")) = Ok items /\
    Forall2 (fun x n => fl_note x = Ok n) items ns /\
    c = with_notes (fl_header path d) ns.
Proof.
  unfold FLStudioConverter.from_json, read_json.
  destruct (fs !! path) as [[data|mid|]|] eqn:Hfs; try discriminate.
  cbn [mbind result_bind]. destruct data as [| | | | |l|d]; try discriminate.
  destruct (py_iter (default (PList []) (d !! "notes"))) as [items|e] eqn:Hit.
  - rewrite (from_json_data_loop path d items Hit). intros H.
    apply append_loop_inv in H as (ns & Hns & ->). eauto 10.
  - unfold FLStudioConverter.from_json_data. simpl. rewrite Hit. discriminate.
Qed.

Lemma title_of_or (args : Args) :
  py_or (opt_str (title args)) (PStr (Path.stem (Path.str (input args)))) =
    PStr (title_of args).
Proof.
  unfold title_of, py_or. destruct (title args) as [s|]; simpl; [|reflexivity].
  destruct (String.eqb s ""); reflexivity.
Qed.

(** A run that exits with 0 converted the input with the importer of the
    detected source and saved the collection at the output path. *)
Lemma main_inv (installed : bool) (args : Args) (fs fs' : files) :
  main installed args fs = Ok (0, fs') ->
  exists c,
    fs' = NoteCollection.save c (output_path args) fs /\
    is_Some (fs !! Path.str (input args)) /\
    ((detect args = Some syntomid /\
      SynToMidConverter.from_midi_file installed (Path.str (input args))
        (PDict (<["title" := PStr (title_of args)]>
               (<["bpm" := PInt (bpm args)]> ∅))) fs = Ok (Some c)) \/
     (detect args <> Some syntomid /\
      FLStudioConverter.from_json (Path.str (input args)) fs = Ok c)).
Proof.
  unfold main. rewrite title_of_or.
  destruct (fs !! Path.str (input args)) as [f|] eqn:Hfs; [|discriminate].
  destruct (detect args) as [[| |]|]; try discriminate.
  - destruct (SynToMidConverter.from_midi_file _ _ _ _) as [[c|]|e] eqn:E;
      cbn [mbind result_bind]; try discriminate.
    intros [= <-]. exists c. split; [reflexivity|]. split; [eauto|]. left. auto.
  - destruct (FLStudioConverter.from_json _ _) as [c|e] eqn:E;
      cbn [mbind result_bind]; try discriminate.
    intros [= <-]. exists c. split; [reflexivity|]. split; [eauto|].
    right. split; [discriminate | reflexivity].
  - destruct (FLStudioConverter.from_json _ _) as [c|e] eqn:E;
      cbn [mbind result_bind]; try discriminate.
    intros [= <-]. exists c. split; [reflexivity|]. split; [eauto|].
    right. split; [discriminate | reflexivity].
Qed.




(** X9: [main] exits with 1, raises nothing and writes nothing when the
    input does not exist, when the source is to be detected and the suffix
    of the input in lower case is neither [.mid] nor [.json], and when the
    source is MIDI while mido is not installed (whatever the input holds). *)
Theorem main_refuses (installed : bool) (args : Args) (fs : files) :
  fs !! Path.str (input args) = None \/
  (source args = auto /\
   Path.lower (Path.suffix (input args)) <> ".mid" /\
   Path.lower (Path.suffix (input args)) <> ".json") \/
  (installed = false /\ detect args = Some syntomid) ->
  main installed args fs = Ok (1, fs).
Proof.
  unfold main. intros [H|[(Hs & Hm & Hj)|(-> & Hd)]].
  - rewrite H. reflexivity.
  - destruct (fs !! Path.str (input args)); [|reflexivity].
    unfold detect. rewrite Hs.
    destruct (String.eqb_spec (Path.lower (Path.suffix (input args))) ".mid");
      [contradiction|].
    destruct (String.eqb_spec (Path.lower (Path.suffix (input args))) ".json");
      [contradiction|].
    reflexivity.
  - destruct (fs !! Path.str (input args)); [|reflexivity]. rewrite Hd. reflexivity.
Qed.

Lemma main_refuses_witness :
  main true Sample2.text_args (<["notes.txt" := OtherFile]> ∅) =
    Ok (1, <["notes.txt" := OtherFile]> ∅).
Proof.
  apply (main_refuses true Sample2.text_args). right. left.
  split; [reflexivity|]. split; vm_compute; discriminate.
Defined.

Lemma with_notes_header (c : NoteCollection.t) (l : list Note.t) :
  NoteCollection.version (with_notes c l) = NoteCollection.version c /\
  NoteCollection.source (with_notes c l) = NoteCollection.source c /\
  NoteCollection.metadata (with_notes c l) = NoteCollection.metadata c.
Proof. repeat split. Qed.

Lemma main_written (installed : bool) (args : Args) (fs : files)
    (c : NoteCollection.t) :
  (detect args = Some syntomid /\
   SynToMidConverter.from_midi_file installed (Path.str (input args))
     (PDict (<["title" := PStr (title_of args)]>
            (<["bpm" := PInt (bpm args)]> ∅))) fs = Ok (Some c)) \/
  (detect args <> Some syntomid /\
   FLStudioConverter.from_json (Path.str (input args)) fs = Ok c) ->
  NoteCollection.metadata c <> PNone /\
  NoteCollection.version c = PStr "1.0" /\
  NoteCollection.source c = PStr (written_source args).
Proof.
  unfold written_source. intros [(Hd & H)|(Hd & H)].
  - rewrite Hd.
    destruct (from_midi_file_inv _ _ _ _ _ H) as (mid & Hfs).
    destruct (from_midi_file_Ok _ _ _ _ _ _ Hfs H) as (_ & Hv & Hs & Hm).
    split; [rewrite Hm; apply init_metadata_not_None | auto].
  - apply from_json_inv in H as (d & items & ns & _ & _ & _ & ->).
    split; [discriminate|]. split; [reflexivity|].
    destruct (detect args) as [[| |]|]; try reflexivity. contradiction.
Qed.

(** X10: whatever a run of [main] with exit status 0 wrote, [load] reads:
    the output path then holds a collection of version 1.0 whose source is
    [syntomid] or [fl_studio] as detected, and it is a file that saving the
    loaded collection again would write unchanged. *)
Theorem main_output_loads (installed : bool) (args : Args) (fs fs' : files) :
  main installed args fs = Ok (0, fs') ->
  exists c,
    NoteCollection.load (output_path args) fs' = Ok c /\
    NoteCollection.version c = PStr "1.0" /\
    NoteCollection.source c = PStr (written_source args) /\
    NoteCollection.save c (output_path args) fs' = fs'.
Proof.
  intros H. apply main_inv in H as (c & -> & _ & H).
  destruct (main_written _ _ _ _ H) as (Hm & Hv & Hs).
  eexists. split; [apply (load_save_collection c _ fs Hm)|].
  split; [exact Hv|]. split; [exact Hs|].
  unfold NoteCollection.save. rewrite insert_insert_eq. do 3 f_equal.
  unfold NoteCollection.to_dict. simpl. rewrite <- list_fmap_compose.
  do 5 f_equal. apply list_fmap_ext. intros i n _. simpl.
  rewrite to_dict_reloaded. reflexivity.
Qed.

Lemma main_output_loads_witness :
  exists fs' c,
    main true Sample2.fl_args Sample2.fl_files = Ok (0, fs') /\
    NoteCollection.load "fl.json" fs' = Ok c /\
    NoteCollection.source c = PStr "fl_studio".
Proof.
  assert (exists fs', main true Sample2.fl_args Sample2.fl_files = Ok (0, fs'))
    as [fs' Hrun] by (eexists; vm_compute; reflexivity).
  destruct (main_output_loads true Sample2.fl_args Sample2.fl_files fs' Hrun)
    as (c & Hc & _ & Hs & _).
  exists fs', c. split; [exact Hrun|]. split; [exact Hc | exact Hs].
Defined.



(** X12: for a JSON source the options [--title] and [--bpm] (and whether
    mido is installed) change nothing: two runs that agree on input, output
    and source end alike. *)
Theorem main_json_ignores_options (installed installed' : bool)
    (args args' : Args) (fs : files) :
  detect args = Some fl_studio ->
  input args' = input args -> output args' = output args ->
  source args' = source args ->
  main installed' args' fs = main installed args fs.
Proof.
  intros Hd Hi Ho Hs.
  assert (detect args' = Some fl_studio) as Hd'
    by (unfold detect in *; rewrite Hi, Hs; exact Hd).
  unfold main. rewrite Hd, Hd', Hi, Ho. reflexivity.
Qed.

Lemma main_json_ignores_options_witness :
  main false Sample2.fl_titled_args Sample2.fl_files =
    main true Sample2.fl_args Sample2.fl_files.
Proof.
  apply (main_json_ignores_options true false Sample2.fl_args
           Sample2.fl_titled_args Sample2.fl_files);
    vm_compute; reflexivity.
Defined.

(** X13: a run of [main] on a MIDI source that exits with 0 wrote a
    collection of source [syntomid] whose metadata is the title and the bpm
    of the command line and nothing else; the title is [--title], and the
    stem of the input path when the option is absent or the empty string. *)
Theorem main_midi_title (installed : bool) (args : Args) (fs fs' : files) :
  detect args = Some syntomid ->
  main installed args fs = Ok (0, fs') ->
  exists d,
    fs' !! output_path args = Some (JsonFile (PDict d)) /\
    d !! "source" = Some (PStr "syntomid") /\
    d !! "metadata" =
      Some (PDict (<["title" := PStr (title_of args)]>
                  (<["bpm" := PInt (bpm args)]> ∅))).
Proof.
  intros Hd H. apply main_inv in H as (c & -> & _ & [(_ & H)|(Hn & _)]);
    [|contradiction].
  destruct (from_midi_file_inv _ _ _ _ _ H) as (mid & Hfs).
  destruct (from_midi_file_Ok _ _ _ _ _ _ Hfs H) as (_ & _ & Hs & Hm).
  unfold py_or at 1 in Hm. rewrite two_keys_truthy in Hm.
  exists (NoteCollection.to_dict c). split; [apply lookup_insert_eq|].
  split.
  - change (NoteCollection.to_dict c !! "source")
      with (Some (NoteCollection.source c)). rewrite Hs. reflexivity.
  - change (NoteCollection.to_dict c !! "metadata")
      with (Some (NoteCollection.metadata c)). rewrite Hm. reflexivity.
Qed.

Lemma main_midi_title_witness :
  exists fs' d,
    main true Sample2.dotted_midi_args Sample.song_files = Ok (0, fs') /\
    fs' !! "song.json" = Some (JsonFile (PDict d)) /\
    d !! "metadata" =
      Some (PDict (<["title" := PStr "song"]> (<["bpm" := PInt 90]> ∅))).
Proof.
  assert (exists fs', main true Sample2.dotted_midi_args Sample.song_files = Ok (0, fs'))
    as [fs' Hrun] by (eexists; vm_compute; reflexivity).
  destruct (main_midi_title true Sample2.dotted_midi_args Sample.song_files fs')
    as (d & Hd & _ & Hm).
  - vm_compute. reflexivity.
  - exact Hrun.
  - exists fs', d. split; [exact Hrun|]. split; [exact Hd | exact Hm].
Defined.

(** ** Entries of an FL Studio export *)

Lemma fl_note_missing (r : dict) (k : string) (ks : list string) :
  Note.missing r = k :: ks -> fl_note (PDict r) = Raise (KeyError k).
Proof.
  unfold Note.missing, Note.required, fl_note. cbn [py_getitem].
  rewrite !filter_cons, filter_nil.
  destruct (r !! "start"), (r !! "duration"), (r !! "pitch"), (r !! "velocity");
    repeat case_decide; try congruence; intros [= <- <-]; reflexivity.
Qed.

Lemma complete_is_Ok (pre : list pyval) :
  Forall complete_record pre -> Forall (fun y => is_Ok (fl_note y)) pre.
Proof.
  intros H. eapply Forall_impl; [exact H|].
  intros v Hv. eexists. apply fl_note_complete, Hv.
Qed.

(** X14: an entry of the [notes] array that lacks a required field makes
    [from_json] raise [KeyError] for the first field that it lacks, in the
    order [start], [duration], [pitch], [velocity], once the entries before
    it are complete; nothing is returned for the entries already read. *)
Theorem from_json_missing_key (path : string) (fs : files) (d : dict)
    (pre post : list pyval) (r : dict) (k : string) (ks : list string) :
  fs !! path = Some (JsonFile (PDict d)) ->
  d !! "notes" = Some (PList (pre ++ PDict r :: post)) ->
  Forall complete_record pre ->
  Note.missing r = k :: ks ->
  FLStudioConverter.from_json path fs = Raise (KeyError k).
Proof.
  intros Hfs Hd Hpre Hk.
  rewrite (from_json_file _ _ _ Hfs).
  rewrite (from_json_data_loop path d (pre ++ PDict r :: post))
    by (rewrite Hd; reflexivity).
  apply append_loop_Raise; [apply complete_is_Ok, Hpre|].
  apply (fl_note_missing r k ks Hk).
Qed.

Lemma from_json_missing_key_witness :
  FLStudioConverter.from_json "short.json"
    (<["short.json" := JsonFile (PDict Sample.short_stored)]> ∅)
  = Raise (KeyError "pitch").
Proof.
  apply (from_json_missing_key "short.json" _ Sample.short_stored []
           [] Sample.short_record "pitch" ["velocity"]).
  - reflexivity.
  - reflexivity.
  - constructor.
  - vm_compute. reflexivity.
Defined.

Lemma fl_note_same_fields (v v' : pyval) :
  same_fields v v' -> fl_note v' = fl_note v.
Proof.
  intros (r & r' & -> & -> & H). unfold fl_note. cbn [py_getitem py_get].
  rewrite <- !H by (unfold Note.fields, Note.required; set_solver).
  reflexivity.
Qed.

Lemma for_each_same_fields (c : NoteCollection.t) (items items' : list pyval) :
  Forall2 same_fields items items' ->
  for_each (append_each fl_note) c items' = for_each (append_each fl_note) c items.
Proof.
  intros H. revert c. induction H as [|v v' l l' Hv _ IH]; intros c;
    cbn [for_each]; [reflexivity|].
  assert (append_each fl_note c v' = append_each fl_note c v) as ->
    by (unfold append_each; rewrite (fl_note_same_fields v v' Hv); reflexivity).
  destruct (append_each fl_note c v) as [c'|e]; cbn [mbind result_bind];
    [apply IH | reflexivity].
Qed.

(** X15: [from_json] reads four keys of the top-level mapping ([bpm],
    [time_signature], [duration_seconds], [notes]) and the six fields of
    each entry, nothing else: two exports that agree on these give the same
    result, whatever other keys they hold.  ([load] refuses an entry with
    another key.) *)
Theorem from_json_ignores_other_keys (path : string) (fs fs' : files)
    (d d' : dict) (items items' : list pyval) :
  fs !! path = Some (JsonFile (PDict d)) ->
  fs' !! path = Some (JsonFile (PDict d')) ->
  d !! "notes" = Some (PList items) ->
  d' !! "notes" = Some (PList items') ->
  d' !! "bpm" = d !! "bpm" ->
  d' !! "time_signature" = d !! "time_signature" ->
  d' !! "duration_seconds" = d !! "duration_seconds" ->
  Forall2 same_fields items items' ->
  FLStudioConverter.from_json path fs' = FLStudioConverter.from_json path fs.
Proof.
  intros Hfs Hfs' Hd Hd' Hb Ht Hs Hitems.
  rewrite (from_json_file _ _ _ Hfs), (from_json_file _ _ _ Hfs').
  rewrite (from_json_data_loop path d items) by (rewrite Hd; reflexivity).
  rewrite (from_json_data_loop path d' items') by (rewrite Hd'; reflexivity).
  unfold fl_header. rewrite Hb, Ht, Hs.
  apply for_each_same_fields, Hitems.
Qed.

Lemma from_json_ignores_other_keys_witness :
  FLStudioConverter.from_json "fl.json"
    (<["fl.json" := JsonFile (PDict Sample2.noisy_song)]> ∅) =
  FLStudioConverter.from_json "fl.json" Sample2.fl_files /\
  NoteCollection.load "fl.json"
    (<["fl.json" := JsonFile (PDict Sample2.noisy_song)]> ∅) =
    Raise (TypeError UnexpectedKeyword).
Proof.
  split; [|vm_compute; reflexivity].
  apply (from_json_ignores_other_keys "fl.json" Sample2.fl_files _
           Sample.fl_song Sample2.noisy_song
           [PDict Sample.fl_entry] [PDict Sample.extra_record]);
    try reflexivity.
  constructor; [|constructor].
  exists Sample.fl_entry, Sample.extra_record.
  split; [reflexivity|]. split; [reflexivity|].
  intros k Hk. unfold Note.fields, Note.required in Hk.
  repeat (apply elem_of_cons in Hk as [->|Hk]; [reflexivity|]).
  inversion Hk.
Defined.

Lemma fl_note_to_dict (n : Note.t) :
  fl_note (PDict (Note.to_dict n)) = Ok (reloaded n).
Proof.
  rewrite fl_note_complete
    by (eexists; split; [reflexivity | apply to_dict_complete]).
  f_equal. unfold note_of_record, reloaded, record_of.
  rewrite !lookup_total_alt, !to_dict_lookup. simpl.
  destruct n as [s d p v c cn]; simpl. destruct (truthy cn); reflexivity.
Qed.

Lemma Forall2_fl_note_to_dict (l : list Note.t) :
  Forall2 (fun x n => fl_note x = Ok n)
          ((fun n => PDict (Note.to_dict n)) <$> l) (reloaded <$> l).
Proof.
  induction l as [|n l IH]; simpl; constructor; [apply fl_note_to_dict | assumption].
Qed.

(** X16: [from_json] reads a file that [save] wrote, for every collection:
    it returns the notes that [load] would return, in order, under version
    1.0 and source [fl_studio]; the saved version, source and metadata are
    not read, the metadata is the title from the file name with bpm 120,
    time signature 4/4 and duration 0.0. *)
Theorem from_json_of_saved (c : NoteCollection.t) (path : string) (fs : files) :
  exists c',
    FLStudioConverter.from_json path (NoteCollection.save c path fs) = Ok c' /\
    NoteCollection.notes c' = reloaded <$> NoteCollection.notes c /\
    NoteCollection.version c' = PStr "1.0" /\
    NoteCollection.source c' = PStr "fl_studio" /\
    NoteCollection.metadata c' = PDict (fl_default_metadata path).
Proof.
  eexists. split.
  - rewrite (from_json_file path _ (PDict (NoteCollection.to_dict c)))
      by apply lookup_insert_eq.
    rewrite (from_json_data_loop path _
               ((fun n => PDict (Note.to_dict n)) <$> NoteCollection.notes c))
      by reflexivity.
    apply append_loop_Ok, Forall2_fl_note_to_dict.
  - repeat split.
Qed.

(** ** Stored collections with absent or unusable keys *)

Lemma load_inv (path : string) (fs : files) (d : dict) (c : NoteCollection.t) :
  fs !! path = Some (JsonFile (PDict d)) ->
  NoteCollection.load path fs = Ok c ->
  exists items ns,
    py_iter (default (PList []) (d !! "notes")) = Ok items /\
    Forall2 (fun x n => Note.splat x = Ok n) items ns /\
    c = with_notes (loaded_header d) ns.
Proof.
  intros Hfs. rewrite (load_file _ _ _ Hfs). unfold NoteCollection.load_data.
  cbn [py_get mbind result_bind].
  destruct (py_iter (default (PList []) (d !! "notes"))) as [items|e];
    cbn [mbind result_bind]; [|discriminate].
  intros H. apply (append_loop_inv Note.splat) in H as (ns & Hns & ->). eauto.
Qed.

(** X17: the metadata of a loaded collection follows the stored key
    [metadata]: without the key it is the empty mapping (not the four
    defaults of the constructor), with a null it is the four defaults, and
    any other stored value is taken as it is; without the key [notes] the
    collection has no notes. *)
Theorem load_metadata (path : string) (fs : files) (d : dict)
    (c : NoteCollection.t) :
  fs !! path = Some (JsonFile (PDict d)) ->
  NoteCollection.load path fs = Ok c ->
  NoteCollection.metadata c = loaded_metadata (d !! "metadata") /\
  (d !! "notes" = None -> NoteCollection.notes c = []).
Proof.
  intros Hfs H. destruct (load_inv _ _ _ _ Hfs H) as (items & ns & Hit & Hns & ->).
  split.
  - unfold loaded_header, loaded_metadata. simpl.
    destruct (d !! "metadata") as [[]|]; reflexivity.
  - intros Hd. rewrite Hd in Hit. injection Hit as <-.
    inversion Hns. reflexivity.
Qed.

Lemma load_metadata_witness :
  exists c,
    NoteCollection.load "stored.json"
      (<["stored.json" := JsonFile (PDict Sample2.null_metadata_stored)]> ∅) = Ok c /\
    NoteCollection.metadata c = PDict NoteCollection.default_metadata.
Proof.
  assert (exists c, NoteCollection.load "stored.json"
            (<["stored.json" := JsonFile (PDict Sample2.null_metadata_stored)]> ∅)
          = Ok c) as [c Hc] by (eexists; vm_compute; reflexivity).
  exists c. split; [exact Hc|].
  apply (load_metadata "stored.json"
           (<["stored.json" := JsonFile (PDict Sample2.null_metadata_stored)]> ∅)
           Sample2.null_metadata_stored c); [reflexivity | exact Hc].
Defined.

(** X18: both readers raise on a JSON text of another shape, before any
    note is read: [AttributeError] when the top level is not a mapping, the
    not-iterable [TypeError] when the value of [notes] is null, a bool or a
    number. *)
Theorem readers_reject_shape (path : string) (fs : files) (data : pyval)
    (e : exn) :
  fs !! path = Some (JsonFile data) ->
  shape_error data = Some e ->
  NoteCollection.load path fs = Raise e /\
  FLStudioConverter.from_json path fs = Raise e.
Proof.
  intros Hfs. rewrite (load_file _ _ _ Hfs), (from_json_file _ _ _ Hfs).
  destruct data as [| | | | | |d]; try (intros [= <-]; split; reflexivity).
  unfold shape_error, NoteCollection.load_data, FLStudioConverter.from_json_data.
  cbn [py_get mbind result_bind].
  destruct (d !! "notes") as [[]|]; try discriminate;
    intros [= <-]; split; reflexivity.
Qed.

Lemma readers_reject_shape_witness :
  NoteCollection.load "null.json"
    (<["null.json" := JsonFile (PDict (<["notes" := PNone]> ∅))]> ∅) =
    Raise (TypeError NotIterable) /\
  FLStudioConverter.from_json "null.json"
    (<["null.json" := JsonFile (PDict (<["notes" := PNone]> ∅))]> ∅) =
    Raise (TypeError NotIterable).
Proof.
  apply (readers_reject_shape "null.json" _ (PDict (<["notes" := PNone]> ∅))).
  - reflexivity.
  - reflexivity.
Defined.
